(** * Shallow embedding of the burn-job orchestration core of eden-burner

    Sources embedded here:
    - [src/app/job_queue.py]: [JobStatus], [BurnJob] and the [JobQueue]
      methods (dispatch, admission gate, stage handlers, cancel, retry);
    - [src/app/background_worker.py]: one tick of the worker loop
      ([_process_job_queue], [_check_ready_jobs]) and [check_for_new_isos];
    - [src/services/jdf_handler.py]: the marker-file status reader.

    Conventions.  A Python [dict] keyed by job id is an association list in
    insertion order (assignment to an existing key keeps its position).
    Timestamps ([datetime.now()]) are integers supplied by the caller.
    Floats used for sizes and progress are rationals: every value the code
    stores or compares ([0.0], [50.0], [100.0], byte counts divided by
    [1024 * 1024]) is exact in binary floating point.  Observable side
    effects (subscriber notifications, API status writes, download
    aborts) are recorded in an event log. *)

From Stdlib Require Import ZArith QArith.
From stdpp Require Import base list strings relations pretty.

Open Scope Z_scope.

(** ** Job status ([class JobStatus(Enum)]) *)

Inductive JobStatus :=
  | PENDING | DOWNLOADING | DOWNLOADED | GENERATING_JDF | JDF_READY
  | QUEUED_FOR_BURNING | BURNING | VERIFYING | COMPLETED | FAILED | CANCELLED.

#[global] Instance JobStatus_eq_dec : EqDecision JobStatus.
Proof. solve_decision. Defined.

Definition status_eqb (a b : JobStatus) : bool := bool_decide (a = b).

(** [status in [DOWNLOADING, BURNING, VERIFYING]] ([in_progress_statuses]) *)
Definition in_progress (s : JobStatus) : bool :=
  match s with DOWNLOADING | BURNING | VERIFYING => true | _ => false end.

(** [status in [CANCELLED, COMPLETED, FAILED]] (skipped by [get_next_job],
    refused by [cancel_job]) *)
Definition is_finished (s : JobStatus) : bool :=
  match s with CANCELLED | COMPLETED | FAILED => true | _ => false end.

(** [status in [COMPLETED, FAILED]] (API write-through in [update_status]) *)
Definition is_api_reported (s : JobStatus) : bool :=
  match s with COMPLETED | FAILED => true | _ => false end.

(** ** Jobs ([@dataclass class BurnJob]) *)

(** [iso_info] is the ISO record of the GraphQL API; the paths embedded here
    read only its ["id"] entry, which every record carries
    ([update_status_to_api] subscripts it with [self.iso_info["id"]]). *)
Record ISOInfo := mkISOInfo { iso_id : string }.

Record BurnJob := mkBurnJob {
  id : string;
  iso_info : ISOInfo;
  status : JobStatus;
  created_at : Z;
  updated_at : Z;
  iso_path : option string;
  jdf_path : option string;
  progress : Q;
  error_message : option string;
  retry_count : Z;
  notification_sent : bool;
  disc_type : option string
}.

(** [BurnJob(id=job_id, iso_info=iso_info)] with the dataclass defaults. *)
Definition new_job (jid : string) (info : ISOInfo) (now : Z) : BurnJob :=
  mkBurnJob jid info PENDING now now None None 0%Q None 0 false None.

(** Field assignments [job.f = v]. *)
Definition set_status (j : BurnJob) (s : JobStatus) : BurnJob :=
  mkBurnJob (id j) (iso_info j) s (created_at j) (updated_at j) (iso_path j)
    (jdf_path j) (progress j) (error_message j) (retry_count j)
    (notification_sent j) (disc_type j).
Definition set_updated_at (j : BurnJob) (t : Z) : BurnJob :=
  mkBurnJob (id j) (iso_info j) (status j) (created_at j) t (iso_path j)
    (jdf_path j) (progress j) (error_message j) (retry_count j)
    (notification_sent j) (disc_type j).
Definition set_iso_path (j : BurnJob) (p : option string) : BurnJob :=
  mkBurnJob (id j) (iso_info j) (status j) (created_at j) (updated_at j) p
    (jdf_path j) (progress j) (error_message j) (retry_count j)
    (notification_sent j) (disc_type j).
Definition set_jdf_path (j : BurnJob) (p : option string) : BurnJob :=
  mkBurnJob (id j) (iso_info j) (status j) (created_at j) (updated_at j)
    (iso_path j) p (progress j) (error_message j) (retry_count j)
    (notification_sent j) (disc_type j).
Definition set_progress (j : BurnJob) (q : Q) : BurnJob :=
  mkBurnJob (id j) (iso_info j) (status j) (created_at j) (updated_at j)
    (iso_path j) (jdf_path j) q (error_message j) (retry_count j)
    (notification_sent j) (disc_type j).
Definition set_error_message (j : BurnJob) (m : option string) : BurnJob :=
  mkBurnJob (id j) (iso_info j) (status j) (created_at j) (updated_at j)
    (iso_path j) (jdf_path j) (progress j) m (retry_count j)
    (notification_sent j) (disc_type j).
Definition set_notification_sent (j : BurnJob) (b : bool) : BurnJob :=
  mkBurnJob (id j) (iso_info j) (status j) (created_at j) (updated_at j)
    (iso_path j) (jdf_path j) (progress j) (error_message j) (retry_count j)
    b (disc_type j).
Definition set_disc_type (j : BurnJob) (d : option string) : BurnJob :=
  mkBurnJob (id j) (iso_info j) (status j) (created_at j) (updated_at j)
    (iso_path j) (jdf_path j) (progress j) (error_message j) (retry_count j)
    (notification_sent j) d.

(** ** Observable effects *)

Inductive Event :=
  (** [_notify_job_update(job)]: the subscribers see this snapshot *)
  | EvNotify (j : BurnJob)
  (** [graphql_client.update_download_iso_status(iso_id, status_burn, error_message)] *)
  | EvApiUpdate (iso : string) (st : JobStatus) (err : option string)
  (** [download_manager.cancel_download(iso_id)] *)
  | EvCancelDownload (iso : string).

(** ** [BurnJob.update_status] and [BurnJob.update_status_to_api]

    [api] is [true] when the caller passes [job_queue=self].  The API call
    result is only logged (its exceptions are caught), so it is an event. *)
Definition update_status (j : BurnJob) (s : JobStatus) (msg : option string)
    (api : bool) (now : Z) : BurnJob * list Event :=
  if status_eqb (status j) s then (j, [])
  else
    let j' := set_notification_sent
                (set_error_message (set_updated_at (set_status j s) now) msg)
                false in
    (j', if api && is_api_reported s
         then [EvApiUpdate (iso_id (iso_info j')) s
                 (if status_eqb s FAILED then error_message j' else None)]
         else []).

(** ** The job table ([self.jobs: Dict[str, BurnJob]]) *)

Fixpoint dict_get (d : list (string * BurnJob)) (k : string) : option BurnJob :=
  match d with
  | [] => None
  | (k', v) :: d' => if String.eqb k k' then Some v else dict_get d' k
  end.

(** [d[k] = v]: an existing key keeps its position, a new key goes last. *)
Fixpoint dict_set (d : list (string * BurnJob)) (k : string) (v : BurnJob)
    : list (string * BurnJob) :=
  match d with
  | [] => [(k, v)]
  | (k', v') :: d' => if String.eqb k k' then (k', v) :: d' else (k', v') :: dict_set d' k v
  end.

Definition dict_values (d : list (string * BurnJob)) : list BurnJob := map snd d.

(** [list.remove(x)]: removes the first occurrence; raises [ValueError] when
    absent, which [cancel_job] rules out with its [if job_id in ...] test. *)
Fixpoint list_remove (l : list string) (x : string) : list string :=
  match l with
  | [] => []
  | y :: l' => if String.eqb x y then l' else y :: list_remove l' x
  end.

Definition list_mem (x : string) (l : list string) : bool :=
  existsb (String.eqb x) l.

(** Worker threads started by the stage handlers. *)
Inductive Thread :=
  | DownloadThread (jid : string)   (** [_download_worker(job)] *)
  | BurnThread (jid : string).      (** [_burn_loop(job)] *)

(** State of one [JobQueue] with the threads it started and the log. *)
Record QueueState := mkQueueState {
  jobs : list (string * BurnJob);
  job_queue : list string;
  threads : list Thread;
  events : list Event
}.

Definition empty_queue : QueueState := mkQueueState [] [] [] [].

(** ** Admission gate ([JobQueue._can_process_job]) *)

Definition active_jobs (d : list (string * BurnJob)) : nat :=
  length (filter (fun j => in_progress (status j) = true) (dict_values d)).

Definition can_process_job (max_concurrent_jobs : Z)
    (d : list (string * BurnJob)) (j : BurnJob) : bool :=
  (Z.of_nat (active_jobs d) <? max_concurrent_jobs) || negb (in_progress (status j)).

(** ** [JobQueue.get_next_job]: the [while self.job_queue] loop; returns the
    job and the new dispatch list. *)
Fixpoint get_next_job_loop (max_concurrent_jobs : Z) (d : list (string * BurnJob))
    (q : list string) : option BurnJob * list string :=
  match q with
  | [] => (None, [])
  | jid :: rest =>
      match dict_get d jid with
      | None => get_next_job_loop max_concurrent_jobs d rest
      | Some j =>
          if is_finished (status j) then get_next_job_loop max_concurrent_jobs d rest
          else if can_process_job max_concurrent_jobs d j then (Some j, rest)
          else (None, q)
      end
  end.

Definition get_next_job (max_concurrent_jobs : Z) (st : QueueState)
    : option BurnJob * QueueState :=
  let '(r, q') := get_next_job_loop max_concurrent_jobs (jobs st) (job_queue st) in
  (r, mkQueueState (jobs st) q' (threads st) (events st)).

(** ** Stage handlers.  Each returns the mutated job, the events it emitted
    and the threads it started.  A handler runs as one atomic step: the
    [if job.status != JobStatus.CANCELLED] re-checks inside a handler
    therefore see the status the handler itself left. *)

Definition handler_result : Type := BurnJob * list Event * list Thread.

(** [JobQueue._start_download] *)
Definition start_download (now : Z) (j : BurnJob) : handler_result :=
  if status_eqb (status j) CANCELLED then (j, [], [])
  else
    let '(j1, e1) := update_status j DOWNLOADING None false now in
    (j1, e1 ++ [EvNotify j1], [DownloadThread (id j1)]).

(** Outcome of [JDFGenerator(job.id).create_burn_job_jdf()]: the path of
    the written file, or the text of the exception it raised. *)
Inductive GenOutcome := GenOk (path : string) | GenRaise (err : string).

(** [if not job.iso_path]: [None] and [""] are both falsy. *)
Definition truthy_path (p : option string) : bool :=
  match p with None => false | Some s => negb (String.eqb s "") end.

(** [JobQueue._start_jdf_generation] *)
Definition start_jdf_generation (gen : GenOutcome) (now : Z) (j : BurnJob)
    : handler_result :=
  if status_eqb (status j) CANCELLED then (j, [], [])
  else if negb (truthy_path (iso_path j)) then
    let '(j1, e1) := update_status j FAILED (Some "No ISO file path") true now in
    (j1, e1 ++ [EvNotify j1], [])
  else
    let '(j1, e1) := update_status j GENERATING_JDF None false now in
    let e1 := e1 ++ [EvNotify j1] in
    match gen with
    | GenOk p =>
        let j2 := set_jdf_path j1 (Some p) in
        let '(j3, e3) :=
          if status_eqb (status j2) CANCELLED then (j2, [])
          else update_status j2 JDF_READY None false now in
        (j3, e1 ++ e3 ++ [EvNotify j3], [])
    | GenRaise err =>
        let '(j3, e3) :=
          if status_eqb (status j1) CANCELLED then (j1, [])
          else update_status j1 FAILED (Some (String.append "JDF generation failed: " err)) true now in
        (j3, e1 ++ e3 ++ [EvNotify j3], [])
    end.

(** [JobQueue._queue_for_burning] *)
Definition queue_for_burning (now : Z) (j : BurnJob) : handler_result :=
  if status_eqb (status j) CANCELLED then (j, [], [])
  else
    let '(j1, e1) := update_status j QUEUED_FOR_BURNING None false now in
    (j1, e1 ++ [EvNotify j1], []).

(** [JobQueue._start_burning] *)
Definition start_burning (now : Z) (j : BurnJob) : handler_result :=
  if status_eqb (status j) CANCELLED then (j, [], [])
  else
    let '(j1, e1) := update_status j BURNING None false now in
    let j2 := set_progress j1 0%Q in
    (j2, e1 ++ [EvNotify j2], [BurnThread (id j2)]).

(** [JobQueue.start_job_processing].  Its [except] clause is not reachable
    from these handlers: none of them raises. *)
Definition start_job_processing (gen : GenOutcome) (now : Z) (j : BurnJob)
    : handler_result :=
  if status_eqb (status j) CANCELLED then (j, [], [])
  else match status j with
  | PENDING => start_download now j
  | DOWNLOADED => start_jdf_generation gen now j
  | JDF_READY => queue_for_burning now j
  | QUEUED_FOR_BURNING => start_burning now j
  | _ => (j, [], [])
  end.

(** Writes a handler's result back: the handler mutated the object stored
    under [id j] in [self.jobs]. *)
Definition commit (st : QueueState) (r : handler_result) : QueueState :=
  let '(j, evs, ths) := r in
  mkQueueState (dict_set (jobs st) (id j) j) (job_queue st)
    (threads st ++ ths) (events st ++ evs).

(** ** Marker-file status reader ([services/jdf_handler.py], [JDFHandler]) *)

Inductive MarkerStatus := WAITING | PROCESSING | ERROR | SUCCESS | NOT_FOUND.

(** [fnmatch] of a file name against [f"{stem}*.{ext}"]: the name starts with
    [stem], ends with ["." + ext], and the two parts do not overlap ([*]
    matches any, possibly empty, middle part).  Matching is case-sensitive,
    as [pathlib] globbing is on POSIX.  The stem is matched literally, which
    is what [pathlib] does when the stem has no glob metacharacter
    ([glob_literal]); a stem such as ["a[1]"] is a pattern there. *)
Definition glob_match (stem ext name : string) : bool :=
  String.prefix stem name
  && String.eqb (String.substring (String.length name - String.length ext - 1)%nat
                   (S (String.length ext)) name) (String.append "." ext)
  && (String.length stem + S (String.length ext) <=? String.length name)%nat.

(** The stem has none of the characters [*], [?], [[] that make [fnmatch]
    read a pattern rather than a literal. *)
Definition glob_literal (stem : string) : bool :=
  forallb (fun c => negb (existsb (Ascii.eqb c) (String.list_ascii_of_string "*?[")))
    (String.list_ascii_of_string stem).

(** [sorted(self.parent.glob(...))] is non-empty *)
Definition has_match (files : list string) (stem ext : string) : bool :=
  existsb (glob_match stem ext) files.

(** [file_ext_map] in [get_status], in its priority order. *)
Definition file_ext_map : list (string * MarkerStatus) :=
  [("ERR", ERROR); ("DON", SUCCESS); ("INP", PROCESSING); ("JDF", WAITING)].

Fixpoint get_status_loop (files : list string) (stem : string)
    (m : list (string * MarkerStatus)) : MarkerStatus :=
  match m with
  | [] => NOT_FOUND
  | (ext, st) :: m' =>
      if has_match files stem ext then st else get_status_loop files stem m'
  end.

(** [JDFHandler.get_status]: [files] lists the names in [self.parent],
    [stem] is [self.stem]. *)
Definition get_status (files : list string) (stem : string) : MarkerStatus :=
  get_status_loop files stem file_ext_map.

(** ** Disc type ([BurnJob.detect_disc_type]) *)

Definition MiB : Z := 1024 * 1024.

(** [size_mb = file_size / (1024 * 1024)] *)
Definition size_mb (file_size : Z) : Q := Qdiv (inject_Z file_size) (inject_Z MiB).

Definition Qltb (x y : Q) : bool := negb (Qle_bool y x).

(** [inl] is the returned disc type, [inr] the text of the raised exception. *)
Definition detect_disc_type (file_size : Z) : string + string :=
  let mb := size_mb file_size in
  if Qltb mb (inject_Z 700) then inl "CD"
  else if Qle_bool mb (Qmult (45 # 10) (inject_Z 1024)) then inl "DVD"
  else inr "File size exceeds 4.5GB".

(** ** [JobQueue._download_worker] *)

(** Outcome of [self.download_manager.download_iso(job.iso_info)]: a path
    (with the size [Path(iso_path).stat().st_size] of the file it names),
    a path whose [stat()] in [detect_disc_type] raises (with the text of
    the exception), [None], or an exception with its text. *)
Inductive DownloadOutcome :=
  | DlPath (path : string) (file_size : Z)
  | DlStatRaise (path : string) (err : string)
  | DlNone
  | DlRaise (err : string).

Definition download_failed (now : Z) (j : BurnJob) : BurnJob * list Event :=
  if status_eqb (status j) CANCELLED then (j, [])
  else update_status j FAILED (Some "Download failed") true now.

Definition download_worker (o : DownloadOutcome) (now : Z) (j : BurnJob)
    : BurnJob * list Event :=
  let '(j1, e1) :=
    match o with
    | DlRaise err => update_status j FAILED (Some err) true now
    | DlNone => download_failed now j
    | DlStatRaise p err =>
        if negb (truthy_path (Some p)) then download_failed now j
        else update_status (set_iso_path j (Some p)) FAILED (Some err) true now
    | DlPath p sz =>
        if negb (truthy_path (Some p)) then download_failed now j
        else
          let j0 := set_iso_path j (Some p) in
          match detect_disc_type sz with
          | inr err => update_status j0 FAILED (Some err) true now
          | inl d =>
              let j0' := set_disc_type j0 (Some d) in
              if status_eqb (status j0') CANCELLED then (j0', [])
              else update_status j0' DOWNLOADED None false now
          end
    end in
  (j1, e1 ++ [EvNotify j1]).

(** ** [JobQueue._burn_loop]: one iteration of its [while] loop.

    [timed_out] is [datetime.now() > max_time]; [marker] is
    [JDFHandler(job.jdf_path).status] at this poll.  The boolean result
    says whether the thread keeps polling. *)

(** [JobQueue._check_burn_status] *)
Definition check_burn_status (marker : MarkerStatus) (now : Z) (j : BurnJob)
    : BurnJob * list Event :=
  match marker with
  | SUCCESS =>
      let '(j1, e1) := update_status j COMPLETED None true now in
      (set_progress j1 100%Q, e1)
  | PROCESSING => (set_progress j 50%Q, [])
  | ERROR =>
      update_status j FAILED
        (Some (String.append "Burning failed: Burner responded with error for job " (id j)))
        true now
  | _ => (j, [])
  end.

Definition burn_loop_step (timed_out : bool) (marker : MarkerStatus) (now : Z)
    (j : BurnJob) : BurnJob * list Event * bool :=
  if negb (status_eqb (status j) BURNING) then (j, [], false)
  else if timed_out then
    let '(j1, e1) := update_status j FAILED (Some "Burning timed out") true now in
    (j1, e1 ++ [EvNotify j1], false)
  else if negb (truthy_path (jdf_path j)) then
    (* [JDFHandler(None)] raises [ValueError] outside the handler's [try] *)
    let '(j1, e1) :=
      update_status j FAILED (Some "JDF file path must be provided") true now in
    (j1, e1 ++ [EvNotify j1], false)
  else
    let '(j1, e1) := check_burn_status marker now j in
    (j1, e1 ++ [EvNotify j1], true).

(** ** Public operations of [JobQueue] *)

(** [JobQueue.add_job]; [jid] is the fresh [str(uuid.uuid4())]. *)
Definition add_job (jid : string) (info : ISOInfo) (now : Z) (st : QueueState)
    : QueueState :=
  let j := new_job jid info now in
  mkQueueState (dict_set (jobs st) jid j) (job_queue st ++ [jid]) (threads st)
    (events st ++ [EvNotify j]).

(** [JobQueue.cancel_job] *)
Definition cancel_job (jid : string) (now : Z) (st : QueueState) : bool * QueueState :=
  match dict_get (jobs st) jid with
  | None => (false, st)
  | Some j =>
      if is_finished (status j) then (false, st)
      else
        let was_downloading := status_eqb (status j) DOWNLOADING in
        let '(j1, e1) := update_status j CANCELLED (Some "Cancelled by user") true now in
        let q := if list_mem jid (job_queue st) then list_remove (job_queue st) jid
                 else job_queue st in
        let e2 := if was_downloading then [EvCancelDownload (iso_id (iso_info j1))] else [] in
        (true, mkQueueState (dict_set (jobs st) jid j1) q (threads st)
                 (events st ++ e1 ++ e2 ++ [EvNotify j1]))
  end.

(** [JobQueue.retry_job].  [_cleanup_job_files] only deletes files (its
    exceptions are swallowed) and touches no job field. *)
Definition retry_job (jid : string) (now : Z) (st : QueueState) : bool * QueueState :=
  match dict_get (jobs st) jid with
  | None => (false, st)
  | Some j =>
      let '(j1, e1) := update_status j PENDING None false now in
      let j2 := set_notification_sent (set_progress (set_error_message j1 None) 0%Q) false in
      let j3 := set_jdf_path (set_iso_path j2 None) None in
      (true, mkQueueState (dict_set (jobs st) jid j3) (job_queue st ++ [jid])
               (threads st) (events st ++ e1 ++ [EvNotify j3]))
  end.

(** [JobQueue._on_download_progress]: the first job of the table with this
    ISO id that is [DOWNLOADING]. *)
Definition on_download_progress (iso : string) (pct : Q) (now : Z) (st : QueueState)
    : QueueState :=
  match find (fun j => String.eqb (iso_id (iso_info j)) iso
                       && status_eqb (status j) DOWNLOADING) (dict_values (jobs st)) with
  | None => st
  | Some j =>
      let j1 := set_updated_at (set_progress j pct) now in
      mkQueueState (dict_set (jobs st) (id j) j1) (job_queue st) (threads st)
        (events st ++ [EvNotify j1])
  end.

(** [JobQueue.cleanup_completed_jobs]; [cutoff] is [now - max_age]. *)
Definition cleanup_completed_jobs (cutoff : Z) (st : QueueState) : QueueState :=
  mkQueueState
    (filter (fun p => negb (is_api_reported (status p.2) && (updated_at p.2 <? cutoff)) = true)
       (jobs st))
    (job_queue st) (threads st) (events st).

(** ** One tick of [BackgroundWorker._worker_loop] *)

Definition ready_for_next_stage (s : JobStatus) : bool :=
  match s with DOWNLOADED | JDF_READY | QUEUED_FOR_BURNING => true | _ => false end.

(** The [for job in ready_jobs] loop of [_check_ready_jobs]. *)
Fixpoint check_ready_loop (max_concurrent_jobs : Z) (gen : GenOutcome) (now : Z)
    (ready : list BurnJob) (st : QueueState) : QueueState :=
  match ready with
  | [] => st
  | j :: rest =>
      if Z.of_nat (active_jobs (jobs st)) <? max_concurrent_jobs
      then commit st (start_job_processing gen now j)
      else check_ready_loop max_concurrent_jobs gen now rest st
  end.

(** [BackgroundWorker._check_ready_jobs] *)
Definition check_ready_jobs (max_concurrent_jobs : Z) (gen : GenOutcome) (now : Z)
    (st : QueueState) : QueueState :=
  check_ready_loop max_concurrent_jobs gen now
    (filter (fun j => ready_for_next_stage (status j) = true) (dict_values (jobs st))) st.

(** [BackgroundWorker._process_job_queue]; [gen1] and [gen2] are the
    outcomes of a JDF generation started by either dispatch. *)
Definition process_job_queue (max_concurrent_jobs : Z) (gen1 gen2 : GenOutcome)
    (now : Z) (st : QueueState) : QueueState :=
  let '(r, st1) := get_next_job max_concurrent_jobs st in
  let st2 := match r with
             | Some j => commit st1 (start_job_processing gen1 now j)
             | None => st1
             end in
  check_ready_jobs max_concurrent_jobs gen2 now st2.

(** ** Worker threads *)

(** The download thread of [jid] ends after [_download_worker]; it mutates
    the job object held by the table (a job already removed from the table
    is no longer observable). *)
Definition finish_download (jid : string) (o : DownloadOutcome) (now : Z)
    (st : QueueState) : QueueState :=
  match dict_get (jobs st) jid with
  | None => st
  | Some j =>
      let '(j1, e1) := download_worker o now j in
      mkQueueState (dict_set (jobs st) jid j1) (job_queue st) (threads st)
        (events st ++ e1)
  end.

(** One poll of the burn thread of [jid]; [rest_threads] are the threads
    without it, [keep] re-adds it while it keeps polling. *)
Definition burn_poll (jid : string) (timed_out : bool) (marker : MarkerStatus)
    (now : Z) (st : QueueState) (rest_threads : list Thread) : QueueState :=
  match dict_get (jobs st) jid with
  | None => mkQueueState (jobs st) (job_queue st) rest_threads (events st)
  | Some j =>
      let '(j1, e1, keep) := burn_loop_step timed_out marker now j in
      mkQueueState (dict_set (jobs st) jid j1) (job_queue st)
        (if keep then threads st else rest_threads) (events st ++ e1)
  end.

Definition with_threads (st : QueueState) (ts : list Thread) : QueueState :=
  mkQueueState (jobs st) (job_queue st) ts (events st).

(** ** The system: every interleaving of the public operations, the worker
    loop's ticks and the steps of the threads the handlers started, each
    taken as one atomic step.  [max_concurrent_jobs] is the configured
    limit ([app_config.max_concurrent_jobs]). *)
Inductive step (max_concurrent_jobs : Z) : QueueState -> QueueState -> Prop :=
  | step_add st jid info now :
      dict_get (jobs st) jid = None ->
      step max_concurrent_jobs st (add_job jid info now st)
  | step_tick st gen1 gen2 now :
      step max_concurrent_jobs st (process_job_queue max_concurrent_jobs gen1 gen2 now st)
  | step_download st pre post jid o now :
      threads st = pre ++ DownloadThread jid :: post ->
      step max_concurrent_jobs st (finish_download jid o now (with_threads st (pre ++ post)))
  | step_burn st pre post jid timed_out marker now :
      threads st = pre ++ BurnThread jid :: post ->
      step max_concurrent_jobs st (burn_poll jid timed_out marker now st (pre ++ post))
  | step_cancel st jid now :
      step max_concurrent_jobs st (cancel_job jid now st).2
  | step_retry st jid now :
      step max_concurrent_jobs st (retry_job jid now st).2
  | step_progress st iso pct now :
      step max_concurrent_jobs st (on_download_progress iso pct now st)
  | step_cleanup st cutoff :
      step max_concurrent_jobs st (cleanup_completed_jobs cutoff st).

Definition reachable (max_concurrent_jobs : Z) (st : QueueState) : Prop :=
  rtc (step max_concurrent_jobs) empty_queue st.

(** ** Subscriber notification ([JobQueue._notify_job_update])

    Python statements here may raise; a computation yields the trace of
    what it did and either a value or the text of a raised [Exception].
    A subscriber callback receives the job and either returns or raises an
    [Exception]; callbacks do not add or remove subscribers while a
    notification runs. *)

Inductive NotifyTrace :=
  | Invoked (idx : nat) (j : BurnJob)   (** [callback(job)], by registration index *)
  | LoggedError (msg : string).          (** [self.logger.error(...)] *)

Definition PyM (A : Type) : Type := list NotifyTrace * (A + string).

Definition py_ret {A} (a : A) : PyM A := ([], inl a).

Definition py_bind {A B} (m : PyM A) (f : A -> PyM B) : PyM B :=
  match m with
  | (t, inl a) => let '(t', r) := f a in (t ++ t', r)
  | (t, inr e) => (t, inr e)
  end.

(** [try: m except Exception as e: h(e)] *)
Definition py_try_except (m : PyM unit) (h : string -> PyM unit) : PyM unit :=
  match m with
  | (t, inr e) => let '(t', r) := h e in (t ++ t', r)
  | ok => ok
  end.

Inductive CallbackResult := Returned | Raised (err : string).

Definition Callback : Type := BurnJob -> CallbackResult.

Definition call_callback (i : nat) (cb : Callback) (j : BurnJob) : PyM unit :=
  ([Invoked i j], match cb j with Returned => inl tt | Raised e => inr e end).

Definition log_error (msg : string) : PyM unit := ([LoggedError msg], inl tt).

Fixpoint notify_loop (i : nat) (cbs : list Callback) (j : BurnJob) : PyM unit :=
  match cbs with
  | [] => py_ret tt
  | cb :: rest =>
      py_bind
        (py_try_except (call_callback i cb j)
           (fun e => log_error (String.append "Error in job update callback: " e)))
        (fun _ => notify_loop (S i) rest j)
  end.

(** [_notify_job_update(job)] over [self.job_update_callbacks]. *)
Definition notify_job_update (cbs : list Callback) (j : BurnJob) : PyM unit :=
  notify_loop 0 cbs j.

Definition invoked (t : list NotifyTrace) : list (nat * BurnJob) :=
  omap (fun e => match e with Invoked i j => Some (i, j) | _ => None end) t.

(** ** API polling ([BackgroundWorker.check_for_new_isos]) *)

(** The worker's state read and written by the polling task: the queue,
    [self.last_api_check], and the number of [uuid.uuid4()] draws so far
    (job ids are [uuid n] for the n-th draw). *)
Record WorkerState := mkWorkerState {
  wqueue : QueueState;
  last_api_check : option Z;
  uuid_draws : nat
}.

(** Outcome of [self.graphql_client.query_new_isos(last_check_str)]: the
    returned items ([None] and [[]] are both [not new_isos]), or an
    exception.  The GraphQL client catches its own query errors and
    returns [[]], so a failed round-trip usually arrives here as an empty
    list. *)
Inductive QueryOutcome := QueryOk (items : list ISOInfo) | QueryRaise (err : string).

(** The [for iso_info in new_isos] loop.  [save_ok info] says whether
    [db.BurnJob.save_job(job_id, iso_info, commit=True)] returns (true) or
    raises (false); the exception is caught per item.  Returns the state and
    [added_count]. *)
Fixpoint add_new_isos (uuid : nat -> string) (save_ok : ISOInfo -> bool) (now : Z)
    (items : list ISOInfo) (w : WorkerState) (added_count : Z) : WorkerState * Z :=
  match items with
  | [] => (w, added_count)
  | info :: rest =>
      if existsb (fun j => String.eqb (iso_id (iso_info j)) (iso_id info))
           (dict_values (jobs (wqueue w)))
      then add_new_isos uuid save_ok now rest w added_count
      else
        let jid := uuid (uuid_draws w) in
        let w' := mkWorkerState (add_job jid info now (wqueue w)) (last_api_check w)
                    (S (uuid_draws w)) in
        if save_ok info then add_new_isos uuid save_ok now rest w' (added_count + 1)
        else add_new_isos uuid save_ok now rest w' added_count
  end.

Definition check_for_new_isos (uuid : nat -> string) (save_ok : ISOInfo -> bool)
    (now : Z) (q : QueryOutcome) (w : WorkerState) : bool * WorkerState :=
  match q with
  | QueryRaise _ => (false, w)
  | QueryOk [] => (false, w)
  | QueryOk items =>
      let '(w', added_count) := add_new_isos uuid save_ok now items w 0 in
      (0 <? added_count,
       mkWorkerState (wqueue w') (Some now) (uuid_draws w'))
  end.

Definition job_uuid (n : nat) : string := String.append "job-" (pretty n).

Definition fresh_worker : WorkerState := mkWorkerState empty_queue None 0.

(** ** Concrete scenarios, invariants and auxiliary notions used below *)

(** The ids [get_next_job] discards: missing or CANCELLED/COMPLETED/FAILED. *)
Definition dropped (d : list (string * BurnJob)) (jid : string) : Prop :=
  match dict_get d jid with None => True | Some j => is_finished (status j) = true end.

(** Two ISOs are added while the limit is 1; two ticks of the worker loop. *)
Definition two_added : QueueState :=
  add_job "job-B" (mkISOInfo "iso-B") 0 (add_job "job-A" (mkISOInfo "iso-A") 0 empty_queue).

Definition two_ticks : QueueState :=
  process_job_queue 1 (GenOk "b.jdf") (GenOk "b.jdf") 2
    (process_job_queue 1 (GenOk "a.jdf") (GenOk "a.jdf") 1 two_added).

(** A job added, then retried while its id is still queued. *)
Definition add_then_retry : QueueState :=
  (retry_job "job-A" 1 (add_job "job-A" (mkISOInfo "iso-A") 0 empty_queue)).2.

(** A job added, then cancelled while PENDING. *)
Definition cancelled_pending : QueueState :=
  (cancel_job "job-A" 1 (add_job "job-A" (mkISOInfo "iso-A") 0 empty_queue)).2.

(** Statuses whose jobs may carry an error message. *)
Definition error_status (s : JobStatus) : bool :=
  match s with FAILED | CANCELLED => true | _ => false end.

Definition job_ok (j : BurnJob) : bool :=
  match error_message j with None => true | Some _ => error_status (status j) end.

Definition queue_ok (st : QueueState) : Prop :=
  Forall (fun j => job_ok j = true) (dict_values (jobs st)).

(** Occurrences of an id in the dispatch list. *)
Definition count_id (jid : string) (q : list string) : nat :=
  length (filter (fun x => String.eqb jid x = true) q).

(** ** Read accessors and the status summary of [JobQueue] *)

(** [JobQueue.get_job] *)
Definition get_job (st : QueueState) (jid : string) : option BurnJob :=
  dict_get (jobs st) jid.

(** [JobQueue.get_jobs_by_status] *)
Definition get_jobs_by_status (st : QueueState) (s : JobStatus) : list BurnJob :=
  filter (fun j => status_eqb (status j) s = true) (dict_values (jobs st)).

(** [JobQueue.get_all_jobs] *)
Definition get_all_jobs (st : QueueState) : list BurnJob := dict_values (jobs st).

(** The dictionary returned by [JobQueue.get_queue_status]. *)
Record QueueStatusInfo := mkQueueStatusInfo {
  qs_total_jobs : nat;
  qs_pending : nat;
  qs_downloading : nat;
  qs_burning : nat;
  qs_completed : nat;
  qs_failed : nat;
  qs_queue_length : nat;
  qs_active_slots : Z
}.

Definition get_queue_status (max_concurrent_jobs : Z) (st : QueueState) : QueueStatusInfo :=
  let pending := length (get_jobs_by_status st PENDING) in
  let downloading := length (get_jobs_by_status st DOWNLOADING) in
  let burning := length (get_jobs_by_status st BURNING) in
  let completed := length (get_jobs_by_status st COMPLETED) in
  let failed := length (get_jobs_by_status st FAILED) in
  mkQueueStatusInfo (length (jobs st)) pending downloading burning completed failed
    (length (job_queue st))
    (Z.min max_concurrent_jobs (Z.of_nat (downloading + burning))).

(** [cutoff_time] of [JobQueue.cleanup_completed_jobs], timestamps in
    seconds. *)
Definition cleanup_cutoff (now max_age_days : Z) : Z := now - max_age_days * 24 * 3600.

(** ** Subscriber registration ([add_job_update_callback],
    [remove_job_update_callback]).  Python compares callbacks with [==],
    which for functions is identity: a registration is a handle of a type
    with decidable equality. *)

Section CallbackRegistry.
Context {A : Type} `{EqDecision A}.

Definition add_job_update_callback (cbs : list A) (cb : A) : list A := cbs ++ [cb].

(** [list.remove(x)] on the callbacks: the first occurrence goes. *)
Fixpoint callbacks_remove (cbs : list A) (cb : A) : list A :=
  match cbs with
  | [] => []
  | c :: cbs' => if bool_decide (cb = c) then cbs' else c :: callbacks_remove cbs' cb
  end.

Definition remove_job_update_callback (cbs : list A) (cb : A) : list A :=
  if bool_decide (cb ∈ cbs) then callbacks_remove cbs cb else cbs.

End CallbackRegistry.

(** ** [JDFHandler.exists] and [JDFHandler.create_if_not_exists]; [files]
    lists the names in [self.parent]. *)

#[global] Instance MarkerStatus_eq_dec : EqDecision MarkerStatus.
Proof. solve_decision. Defined.

Definition jdf_exists (files : list string) (stem : string) : bool :=
  existsb (has_match files stem) ["JDF"; "INP"; "ERR"; "DON"].

(** [jdf_file = self.parent / f"{self.stem}.JDF"]; [touch] adds the name. *)
Definition create_if_not_exists (files : list string) (stem : string) : list string :=
  let jdf_file := String.append stem ".JDF" in
  if existsb (String.eqb jdf_file) files then files else files ++ [jdf_file].

(** ** Persisted status strings and [MainWindow.load_existing_jobs]
    ([src/app/main.py]) *)

(** [JobStatus.value] *)
Definition status_value (s : JobStatus) : string :=
  match s with
  | PENDING => "pending" | DOWNLOADING => "downloading" | DOWNLOADED => "downloaded"
  | GENERATING_JDF => "generating_jdf" | JDF_READY => "jdf_ready"
  | QUEUED_FOR_BURNING => "queued_for_burning" | BURNING => "burning"
  | VERIFYING => "verifying" | COMPLETED => "completed" | FAILED => "failed"
  | CANCELLED => "cancelled"
  end.

(** The members of [JobStatus] in declaration order. *)
Definition all_statuses : list JobStatus :=
  [PENDING; DOWNLOADING; DOWNLOADED; GENERATING_JDF; JDF_READY; QUEUED_FOR_BURNING;
   BURNING; VERIFYING; COMPLETED; FAILED; CANCELLED].

(** [JobStatus(job_record.status or "pending")], where a [ValueError] for an
    unknown value falls back to [PENDING]. *)
Definition status_of_record (v : option string) : JobStatus :=
  let v := match v with
           | None => "pending"
           | Some s => if String.eqb s "" then "pending" else s
           end in
  match find (fun s => String.eqb (status_value s) v) all_statuses with
  | Some s => s
  | None => PENDING
  end.

(** The override of in-progress statuses: the threads that drove them did
    not survive the restart. *)
Definition restore_status (s : JobStatus) : JobStatus :=
  match s with
  | BURNING => QUEUED_FOR_BURNING
  | DOWNLOADING => PENDING
  | GENERATING_JDF => DOWNLOADED
  | s => s
  end.

(** The columns of a stored [BurnJobRecord] that [load_existing_jobs] copies
    into a [BurnJob]. *)
Record JobRecord := mkJobRecord {
  rec_id : string;
  rec_iso_id : string;
  rec_status : option string;
  rec_created_at : option Z;
  rec_updated_at : option Z;
  rec_iso_path : option string;
  rec_jdf_path : option string;
  rec_progress : option Q;
  rec_error_message : option string;
  rec_retry_count : option Z;
  rec_disc_type : option string
}.

(** [x or default] for a nullable column. *)
Definition or_default {A} (o : option A) (d : A) : A :=
  match o with Some x => x | None => d end.

(** [job_record.progress or 0.0]: [0.0] is falsy, so it is also replaced by
    [0.0]; the same holds for [retry_count or 0]. *)
Definition restored_job (now : Z) (r : JobRecord) : BurnJob :=
  mkBurnJob (rec_id r) (mkISOInfo (rec_iso_id r))
    (restore_status (status_of_record (rec_status r)))
    (or_default (rec_created_at r) now) (or_default (rec_updated_at r) now)
    (rec_iso_path r) (rec_jdf_path r) (or_default (rec_progress r) 0%Q)
    (rec_error_message r) (or_default (rec_retry_count r) 0) false (rec_disc_type r).

(** The [for job_record in jobs] loop of [load_existing_jobs]. *)
Fixpoint load_existing_jobs (now : Z) (recs : list JobRecord) (st : QueueState)
    : QueueState :=
  match recs with
  | [] => st
  | r :: recs' =>
      let j := restored_job now r in
      let q := if is_finished (status j) then job_queue st else job_queue st ++ [id j] in
      load_existing_jobs now recs'
        (mkQueueState (dict_set (jobs st) (id j) j) q (threads st) (events st))
  end.

(** ** Invariants of the job table *)

(** Statuses reached only after a successful download ([iso_path] set), and
    only after a JDF was generated ([jdf_path] set). *)
Definition needs_iso_path (s : JobStatus) : bool :=
  match s with
  | DOWNLOADED | GENERATING_JDF | JDF_READY | QUEUED_FOR_BURNING | BURNING | COMPLETED => true
  | _ => false
  end.

Definition needs_jdf_path (s : JobStatus) : bool :=
  match s with JDF_READY | QUEUED_FOR_BURNING | BURNING | COMPLETED => true | _ => false end.

Definition disc_type_ok (d : option string) : bool :=
  match d with None => true | Some t => String.eqb t "CD" || String.eqb t "DVD" end.

Definition job_inv (j : BurnJob) : bool :=
  negb (status_eqb (status j) VERIFYING) && Z.eqb (retry_count j) 0
  && disc_type_ok (disc_type j)
  && (negb (needs_iso_path (status j)) || truthy_path (iso_path j))
  && (negb (needs_jdf_path (status j)) || bool_decide (is_Some (jdf_path j))).

(** Every job is stored under its own id, ids are unique, and every job
    satisfies [job_inv]. *)
Definition table_inv (d : list (string * BurnJob)) : Prop :=
  NoDup (map fst d) /\ Forall (fun p => id p.2 = p.1 /\ job_inv p.2 = true) d.

(** API writes are for COMPLETED without a message or FAILED with one. *)
Definition api_event_ok (e : Event) : bool :=
  match e with
  | EvApiUpdate _ COMPLETED None => true
  | EvApiUpdate _ FAILED (Some _) => true
  | EvApiUpdate _ _ _ => false
  | _ => true
  end.

Definition iso_ids (d : list (string * BurnJob)) : list string :=
  map (fun j => iso_id (iso_info j)) (dict_values d).

Definition events_ok (evs : list Event) : bool := forallb api_event_ok evs.

(** One job through the whole pipeline with [max_concurrent_jobs = 3]. *)
Definition run_added : QueueState := add_job "job-A" (mkISOInfo "iso-A") 0 empty_queue.
Definition run_downloading : QueueState :=
  process_job_queue 3 (GenOk "/jdf/job-A.jdf") (GenOk "/jdf/job-A.jdf") 1 run_added.
Definition run_downloaded : QueueState :=
  finish_download "job-A" (DlPath "/downloads/a.iso" (650 * MiB)) 2
    (with_threads run_downloading []).
Definition run_jdf_ready : QueueState :=
  process_job_queue 3 (GenOk "/jdf/job-A.jdf") (GenOk "/jdf/job-A.jdf") 3 run_downloaded.
Definition run_queued : QueueState :=
  process_job_queue 3 (GenOk "/jdf/job-A.jdf") (GenOk "/jdf/job-A.jdf") 4 run_jdf_ready.
Definition run_burning : QueueState :=
  process_job_queue 3 (GenOk "/jdf/job-A.jdf") (GenOk "/jdf/job-A.jdf") 5 run_queued.
Definition run_completed : QueueState := burn_poll "job-A" false SUCCESS 6 run_burning [].

(** The job as [run_completed] leaves it. *)
Definition completed_job_A : BurnJob :=
  mkBurnJob "job-A" (mkISOInfo "iso-A") COMPLETED 0 6 (Some "/downloads/a.iso")
    (Some "/jdf/job-A.jdf") 100%Q None 0 false (Some "CD").

(** The same job cancelled while its download thread runs. *)
Definition run_cancelled_downloading : QueueState := (cancel_job "job-A" 2 run_downloading).2.

(** Statuses that only a running thread drives. *)
Definition not_mid_stage (s : JobStatus) : Prop :=
  s <> DOWNLOADING /\ s <> BURNING /\ s <> GENERATING_JDF.

(** The [uuid.uuid4()] ids drawn from now on are new keys of the job table
    and pairwise distinct. *)
Definition uuid_fresh (uuid : nat -> string) (w : WorkerState) : Prop :=
  (forall n, (uuid_draws w <= n)%nat -> dict_get (jobs (wqueue w)) (uuid n) = None) /\
  (forall n m, (uuid_draws w <= n)%nat -> (uuid_draws w <= m)%nat -> uuid n = uuid m -> n = m).

(** The table entries that [add_job] appends for the ISOs [added], with the
    ids of the draws [d], [d + 1], ... *)
Fixpoint new_entries (uuid : nat -> string) (now : Z) (d : nat) (added : list ISOInfo)
    : list (string * BurnJob) :=
  match added with
  | [] => []
  | info :: rest => (uuid d, new_job (uuid d) info now) :: new_entries uuid now (S d) rest
  end.

(** * Properties *)

(** ** The job table *)

Lemma dict_get_set_eq (d : list (string * BurnJob)) (k : string) (v : BurnJob) :
  dict_get (dict_set d k v) k = Some v.
Proof.
  induction d as [|[k' v'] d IH]; simpl.
  - by rewrite String.eqb_refl.
  - destruct (String.eqb k k') eqn:E; simpl; rewrite ?E; [done|exact IH].
Qed.

Lemma dict_get_values (d : list (string * BurnJob)) (k : string) (v : BurnJob) :
  dict_get d k = Some v -> v ∈ dict_values d.
Proof.
  induction d as [|[k' v'] d IH]; simpl; [done|].
  destruct (String.eqb k k'); intros H.
  - injection H as <-. left.
  - right. by apply IH.
Qed.

Lemma dict_values_set (P : BurnJob -> Prop) (d : list (string * BurnJob))
    (k : string) (v : BurnJob) :
  Forall P (dict_values d) -> P v -> Forall P (dict_values (dict_set d k v)).
Proof.
  induction d as [|[k' v'] d IH]; simpl; intros Hd Hv.
  - by constructor.
  - inversion Hd; subst.
    destruct (String.eqb k k'); simpl; constructor; auto.
Qed.

(** ** The admission gate and [get_next_job] *)

Lemma can_process_job_spec (max_concurrent_jobs : Z) (d : list (string * BurnJob))
    (j : BurnJob) :
  can_process_job max_concurrent_jobs d j = true <->
  (Z.of_nat (active_jobs d) < max_concurrent_jobs \/ in_progress (status j) = false).
Proof.
  unfold can_process_job. rewrite orb_true_iff, Z.ltb_lt, negb_true_iff. tauto.
Qed.

Lemma get_next_job_loop_spec (max_concurrent_jobs : Z) (d : list (string * BurnJob))
    (q : list string) :
  (forall j q', get_next_job_loop max_concurrent_jobs d q = (Some j, q') ->
     exists p jid, q = p ++ jid :: q' /\ Forall (dropped d) p /\
       dict_get d jid = Some j /\ is_finished (status j) = false /\
       can_process_job max_concurrent_jobs d j = true) /\
  (forall q', get_next_job_loop max_concurrent_jobs d q = (None, q') ->
     exists p, q = p ++ q' /\ Forall (dropped d) p /\
       (q' = [] \/ exists jid rest j, q' = jid :: rest /\ dict_get d jid = Some j /\
          is_finished (status j) = false /\
          can_process_job max_concurrent_jobs d j = false)).
Proof.
  induction q as [|jid q [IHs IHn]]; simpl.
  - split; [intros; discriminate|].
    intros q' H. injection H as <-. exists []. split; [done|]. split; [constructor|]. by left.
  - destruct (dict_get d jid) as [j|] eqn:Hget.
    + destruct (is_finished (status j)) eqn:Hfin.
      * split.
        -- intros j' q' H. destruct (IHs j' q' H) as (p & jid' & -> & Hp & Hrest).
           exists (jid :: p), jid'. split; [done|]. split; [|done].
           constructor; [|done]. unfold dropped. by rewrite Hget.
        -- intros q' H. destruct (IHn q' H) as (p & -> & Hp & Hrest).
           exists (jid :: p). split; [done|]. split; [|done].
           constructor; [|done]. unfold dropped. by rewrite Hget.
      * destruct (can_process_job max_concurrent_jobs d j) eqn:Hcan.
        -- split; [|intros; discriminate].
           intros j' q' H. injection H as <- <-.
           exists [], jid. repeat split; auto.
        -- split; [intros; discriminate|].
           intros q' H. injection H as <-.
           exists []. split; [done|]. split; [constructor|]. right.
           exists jid, q, j. auto.
    + split.
      * intros j' q' H. destruct (IHs j' q' H) as (p & jid' & -> & Hp & Hrest).
        exists (jid :: p), jid'. split; [done|]. split; [|done].
        constructor; [|done]. unfold dropped. by rewrite Hget.
      * intros q' H. destruct (IHn q' H) as (p & -> & Hp & Hrest).
        exists (jid :: p). split; [done|]. split; [|done].
        constructor; [|done]. unfold dropped. by rewrite Hget.
Qed.

(** C1 (code_bug): with [max_concurrent_jobs = 1], adding two jobs and
    running two ticks of the worker loop reaches a state with two jobs in
    [DOWNLOADING]: the gate admits every [PENDING] job, since [PENDING] is
    not itself an active status, so the count of jobs in
    {DOWNLOADING, BURNING, VERIFYING} exceeds the limit. *)
Theorem C1_pending_jobs_bypass_limit :
  reachable 1 two_ticks /\
  map status (dict_values (jobs two_ticks)) = [DOWNLOADING; DOWNLOADING] /\
  Z.of_nat (active_jobs (jobs two_ticks)) > 1.
Proof.
  split; [|split; [reflexivity|vm_compute; reflexivity]].
  unfold reachable, two_ticks, two_added.
  apply rtc_l with (add_job "job-A" (mkISOInfo "iso-A") 0 empty_queue);
    [apply step_add; reflexivity|].
  apply rtc_l with two_added; [apply step_add; reflexivity|].
  apply rtc_l with (process_job_queue 1 (GenOk "a.jdf") (GenOk "a.jdf") 1 two_added);
    [apply step_tick|].
  apply rtc_l with two_ticks; [apply step_tick|].
  apply rtc_refl.
Qed.

(** C2: [get_next_job] drops from the head the ids of missing, CANCELLED,
    COMPLETED or FAILED jobs; it returns and dequeues the next id's job when
    the admission gate (active count below the limit, or the job's own
    status not active) lets it through; otherwise it returns [None] and
    leaves that head id and everything after it in place.  The job table is
    not touched. *)
Theorem C2_get_next_job_fifo (max_concurrent_jobs : Z) (st : QueueState) :
  let '(r, st') := get_next_job max_concurrent_jobs st in
  jobs st' = jobs st /\ threads st' = threads st /\ events st' = events st /\
  match r with
  | Some j =>
      exists p jid, job_queue st = p ++ jid :: job_queue st' /\
        Forall (dropped (jobs st)) p /\ dict_get (jobs st) jid = Some j /\
        is_finished (status j) = false /\
        (Z.of_nat (active_jobs (jobs st)) < max_concurrent_jobs \/
         in_progress (status j) = false)
  | None =>
      exists p, job_queue st = p ++ job_queue st' /\ Forall (dropped (jobs st)) p /\
        (job_queue st' = [] \/
         exists jid rest j, job_queue st' = jid :: rest /\
           dict_get (jobs st) jid = Some j /\ is_finished (status j) = false /\
           ~ (Z.of_nat (active_jobs (jobs st)) < max_concurrent_jobs \/
              in_progress (status j) = false))
  end.
Proof.
  unfold get_next_job.
  destruct (get_next_job_loop_spec max_concurrent_jobs (jobs st) (job_queue st))
    as [Hs Hn].
  destruct (get_next_job_loop max_concurrent_jobs (jobs st) (job_queue st))
    as [[j|] q'] eqn:E; simpl; (split; [done|split; [done|split; [done|]]]).
  - destruct (Hs j q' eq_refl) as (p & jid & Hq & Hp & Hg & Hf & Hc).
    exists p, jid. repeat split; auto. by apply can_process_job_spec.
  - destruct (Hn q' eq_refl) as (p & Hq & Hp & [Hnil|(jid & rest & j & Hq' & Hg & Hf & Hc)]).
    + exists p. auto.
    + exists p. repeat split; auto. right. exists jid, rest, j.
      repeat split; auto. rewrite <- can_process_job_spec. congruence.
Qed.

(** ** Disc type *)

Lemma size_mb_lt (file_size c : Z) :
  Qltb (size_mb file_size) (inject_Z c) = (file_size <? c * MiB).
Proof.
  unfold Qltb, size_mb, Qle_bool, MiB. simpl.
  replace (Z.pos (1 * (1024 * 1024))) with (1024 * 1024) by reflexivity.
  destruct (Z.ltb_spec file_size (c * (1024 * 1024))) as [H|H];
  destruct (Z.leb_spec (c * (1024 * 1024)) (file_size * 1 * 1)) as [H'|H'];
  simpl; lia.
Qed.

Lemma size_mb_le_4608 (file_size : Z) :
  Qle_bool (size_mb file_size) (Qmult (45 # 10) (inject_Z 1024)) =
  (file_size <=? 4608 * MiB).
Proof.
  unfold size_mb, Qle_bool, MiB. simpl.
  replace (Z.pos (1 * (1024 * 1024))) with (1024 * 1024) by reflexivity.
  replace (Z.pos (10 * 1)) with 10 by reflexivity.
  destruct (Z.leb_spec file_size (4608 * (1024 * 1024))) as [H|H];
  destruct (Z.leb_spec (file_size * 1 * 10) (45 * 1024 * (1024 * 1024))) as [H'|H'];
  lia.
Qed.

(** C3: after a download that returned a path, the job's disc type is CD
    below 700 MiB and DVD from 700 MiB up to 4608 MiB inclusive; above
    4608 MiB no disc type is recorded and the job becomes FAILED with the
    size-exceeded message. *)
Theorem C3_disc_classification (j : BurnJob) (path : string) (file_size now : Z) :
  path <> "" ->
  let j' := (download_worker (DlPath path file_size) now j).1 in
  (file_size < 700 * MiB -> disc_type j' = Some "CD") /\
  (700 * MiB <= file_size <= 4608 * MiB -> disc_type j' = Some "DVD") /\
  (4608 * MiB < file_size -> status j <> FAILED ->
     status j' = FAILED /\ error_message j' = Some "File size exceeds 4.5GB" /\
     disc_type j' = disc_type j).
Proof.
  intros Hp j'. subst j'.
  assert (Ht : truthy_path (Some path) = true).
  { unfold truthy_path. apply negb_true_iff, String.eqb_neq. exact Hp. }
  unfold download_worker. rewrite Ht. simpl.
  unfold detect_disc_type. rewrite size_mb_lt, size_mb_le_4608.
  split; [|split].
  - intros H. apply Z.ltb_lt in H. rewrite H. simpl.
    destruct (status_eqb (status j) CANCELLED); simpl; [done|].
    unfold update_status. simpl. by destruct (status_eqb (status j) DOWNLOADED).
  - intros [H1 H2]. apply Z.ltb_ge in H1. apply Z.leb_le in H2. rewrite H1, H2. simpl.
    destruct (status_eqb (status j) CANCELLED); simpl; [done|].
    unfold update_status. simpl. by destruct (status_eqb (status j) DOWNLOADED).
  - intros H Hf.
    assert (H1 : (file_size <? 700 * MiB) = false) by (apply Z.ltb_ge; unfold MiB in *; lia).
    assert (H2 : (file_size <=? 4608 * MiB) = false) by (apply Z.leb_gt; lia).
    rewrite H1, H2. unfold update_status. simpl.
    destruct (status_eqb (status j) FAILED) eqn:E.
    + unfold status_eqb in E. apply bool_decide_eq_true in E. contradiction.
    + simpl. done.
Qed.

Lemma C3_disc_classification_witness :
  (let j' := (download_worker (DlPath "big.iso" (4700 * MiB)) 5
                (new_job "job-A" (mkISOInfo "iso-A") 0)).1 in
   status j' = FAILED /\ error_message j' = Some "File size exceeds 4.5GB") /\
  disc_type (download_worker (DlPath "a.iso" (4608 * MiB)) 5
               (new_job "job-A" (mkISOInfo "iso-A") 0)).1 = Some "DVD".
Proof.
  split.
  - destruct (C3_disc_classification (new_job "job-A" (mkISOInfo "iso-A") 0)
                "big.iso" (4700 * MiB) 5) as (_ & _ & H); [discriminate|].
    destruct (H ltac:(unfold MiB; lia) ltac:(discriminate)) as (H1 & H2 & _).
    split; [exact H1|exact H2].
  - destruct (C3_disc_classification (new_job "job-A" (mkISOInfo "iso-A") 0)
                "a.iso" (4608 * MiB) 5) as (_ & H & _); [discriminate|].
    apply H. unfold MiB; lia.
Defined.

(** ** Marker files *)

(** C4: [get_status] reports ERROR when an ERR marker matches the stem,
    else SUCCESS (DONE) when a DON marker does, else PROCESSING
    (IN-PROGRESS) for an INP marker, else WAITING for a JDF file, and
    NOT_FOUND when none matches; with both DON and ERR markers it reports
    ERROR. *)
Theorem C4_marker_priority (files : list string) (stem : string) :
  let has ext := has_match files stem ext = true in
  (get_status files stem = ERROR <-> has "ERR") /\
  (get_status files stem = SUCCESS <-> ~ has "ERR" /\ has "DON") /\
  (get_status files stem = PROCESSING <-> ~ has "ERR" /\ ~ has "DON" /\ has "INP") /\
  (get_status files stem = WAITING <->
     ~ has "ERR" /\ ~ has "DON" /\ ~ has "INP" /\ has "JDF") /\
  (get_status files stem = NOT_FOUND <->
     ~ has "ERR" /\ ~ has "DON" /\ ~ has "INP" /\ ~ has "JDF") /\
  (has "DON" /\ has "ERR" -> get_status files stem = ERROR).
Proof.
  intros has. subst has. unfold get_status, file_ext_map. simpl.
  destruct (has_match files stem "ERR"), (has_match files stem "DON"),
    (has_match files stem "INP"), (has_match files stem "JDF");
    repeat split; intros; repeat match goal with
      | H : _ /\ _ |- _ => destruct H
      end; try done; try congruence.
Qed.

Lemma C4_marker_priority_witness :
  get_status ["scan_1.DON"; "scan_1.ERR"; "other.INP"] "scan" = ERROR.
Proof.
  destruct (C4_marker_priority ["scan_1.DON"; "scan_1.ERR"; "other.INP"] "scan")
    as (_ & _ & _ & _ & _ & H).
  apply H. split; vm_compute; reflexivity.
Defined.

(** ** Cancellation *)

(** C5: [cancel_job] does not always remove the id from the dispatch list.
    Retrying a job whose id is still queued puts the id twice in the
    dispatch list (a state reachable with the limit 3); [cancel_job] then
    returns true and the job becomes CANCELLED, but [list.remove] removes
    only the first occurrence, so the id is still in the list. *)
Theorem C5_cancel_keeps_second_occurrence :
  reachable 3 add_then_retry /\
  job_queue add_then_retry = ["job-A"; "job-A"] /\
  (cancel_job "job-A" 2 add_then_retry).1 = true /\
  option_map status (dict_get (jobs (cancel_job "job-A" 2 add_then_retry).2) "job-A")
    = Some CANCELLED /\
  job_queue (cancel_job "job-A" 2 add_then_retry).2 = ["job-A"].
Proof.
  split; [|split; [reflexivity|split; [reflexivity|split; reflexivity]]].
  unfold reachable.
  apply rtc_l with (add_job "job-A" (mkISOInfo "iso-A") 0 empty_queue);
    [apply step_add; reflexivity|].
  apply rtc_l with add_then_retry; [apply step_retry|apply rtc_refl].
Qed.

(** ** Error messages *)

(** C6, counterexample: cancelling a PENDING job leaves it CANCELLED with
    the error message "Cancelled by user". *)
Lemma C6_cancel_sets_error_message :
  reachable 3 cancelled_pending /\
  exists j, dict_get (jobs cancelled_pending) "job-A" = Some j /\
    status j = CANCELLED /\ error_message j = Some "Cancelled by user".
Proof.
  split.
  - unfold reachable.
    apply rtc_l with (add_job "job-A" (mkISOInfo "iso-A") 0 empty_queue);
      [apply step_add; reflexivity|].
    apply rtc_l with cancelled_pending; [apply step_cancel|apply rtc_refl].
  - eexists. split; [reflexivity|]. split; reflexivity.
Qed.

Lemma update_status_ok (j : BurnJob) (s : JobStatus) (msg : option string)
    (api : bool) (now : Z) :
  job_ok j = true -> (msg = None \/ error_status s = true) ->
  job_ok (update_status j s msg api now).1 = true.
Proof.
  intros Hj Hm. unfold update_status.
  destruct (status_eqb (status j) s); simpl; [done|].
  unfold job_ok; simpl. destruct Hm as [->|Hs]; [done|]. by destruct msg.
Qed.

(** Unfolds one [update_status] of the goal, keeping what
    [update_status_ok] says of its result. *)
Ltac step_update_status :=
  match goal with
  | |- context [update_status ?j ?s ?m ?a ?n] =>
      let H := fresh "Hus" in
      let j' := fresh "j" in
      let e' := fresh "e" in
      pose proof (update_status_ok j s m a n) as H;
      destruct (update_status j s m a n) as [j' e']; simpl in H
  end.

Ltac solve_job_ok :=
  repeat first
    [ step_update_status
    | progress simpl
    | match goal with
      | |- context [if ?c then _ else _] => destruct c
      | |- context [match ?o with GenOk _ => _ | GenRaise _ => _ end] => destruct o
      | |- context [match ?o with inl _ => _ | inr _ => _ end] => destruct o
      | |- context [match ?m with WAITING => _ | _ => _ end] => destruct m
      end ];
  try assumption;
  try (match goal with
       | H : job_ok ?j = true -> _ -> job_ok _ = true |- _ => apply H
       end; auto).

Lemma start_job_processing_ok (gen : GenOutcome) (now : Z) (j : BurnJob) :
  job_ok j = true -> job_ok (start_job_processing gen now j).1.1 = true.
Proof.
  intros Hj. unfold start_job_processing.
  destruct (status_eqb (status j) CANCELLED); [done|].
  destruct (status j);
    unfold start_download, start_jdf_generation, queue_for_burning, start_burning;
    solve_job_ok.
Qed.

Lemma download_worker_ok (o : DownloadOutcome) (now : Z) (j : BurnJob) :
  job_ok j = true -> job_ok (download_worker o now j).1 = true.
Proof.
  intros Hj. unfold download_worker, download_failed.
  destruct o as [p sz|p err| |err]; solve_job_ok.
Qed.

Lemma burn_loop_step_ok (timed_out : bool) (marker : MarkerStatus) (now : Z)
    (j : BurnJob) :
  job_ok j = true -> job_ok (burn_loop_step timed_out marker now j).1.1 = true.
Proof.
  intros Hj. unfold burn_loop_step, check_burn_status. solve_job_ok.
Qed.

Lemma commit_ok (st : QueueState) (r : handler_result) :
  queue_ok st -> job_ok r.1.1 = true -> queue_ok (commit st r).
Proof.
  destruct r as [[j evs] ths]. unfold queue_ok, commit. simpl.
  intros Hs Hj. by apply dict_values_set.
Qed.

Lemma Forall_filter_sub {A} (P Q : A -> Prop) `{!forall x, Decision (Q x)} (l : list A) :
  Forall P l -> Forall P (filter Q l).
Proof.
  rewrite !Forall_forall. intros HP x Hx. apply list_elem_of_filter in Hx. apply HP; tauto.
Qed.

Lemma check_ready_loop_ok (max_concurrent_jobs : Z) (gen : GenOutcome) (now : Z)
    (ready : list BurnJob) (st : QueueState) :
  Forall (fun j => job_ok j = true) ready -> queue_ok st ->
  queue_ok (check_ready_loop max_concurrent_jobs gen now ready st).
Proof.
  induction ready as [|j ready IH]; simpl; intros Hr Hs; [done|].
  inversion Hr; subst.
  destruct (Z.of_nat (active_jobs (jobs st)) <? max_concurrent_jobs).
  - apply commit_ok; [done|]. by apply start_job_processing_ok.
  - by apply IH.
Qed.

Lemma get_next_job_loop_in (max_concurrent_jobs : Z) (d : list (string * BurnJob))
    (q q' : list string) (j : BurnJob) :
  get_next_job_loop max_concurrent_jobs d q = (Some j, q') -> j ∈ dict_values d.
Proof.
  intros H. destruct (get_next_job_loop_spec max_concurrent_jobs d q) as [Hs _].
  destruct (Hs j q' H) as (p & jid & _ & _ & Hg & _).
  by apply dict_get_values in Hg.
Qed.

Lemma process_job_queue_ok (max_concurrent_jobs : Z) (gen1 gen2 : GenOutcome)
    (now : Z) (st : QueueState) :
  queue_ok st -> queue_ok (process_job_queue max_concurrent_jobs gen1 gen2 now st).
Proof.
  intros Hs. unfold process_job_queue, get_next_job.
  destruct (get_next_job_loop max_concurrent_jobs (jobs st) (job_queue st))
    as [[j|] q'] eqn:E; simpl.
  - assert (Hj : job_ok j = true).
    { apply get_next_job_loop_in in E. unfold queue_ok in Hs.
      rewrite Forall_forall in Hs. by apply Hs. }
    assert (Hs2 : queue_ok (commit (mkQueueState (jobs st) q' (threads st) (events st))
                             (start_job_processing gen1 now j))).
    { apply commit_ok; [done|]. by apply start_job_processing_ok. }
    unfold check_ready_jobs. apply check_ready_loop_ok; [|done].
    apply Forall_filter_sub. exact Hs2.
  - unfold check_ready_jobs. apply check_ready_loop_ok; [|done].
    apply Forall_filter_sub. exact Hs.
Qed.

Lemma step_ok (max_concurrent_jobs : Z) (st st' : QueueState) :
  step max_concurrent_jobs st st' -> queue_ok st -> queue_ok st'.
Proof.
  unfold queue_ok.
  intros Hstep Hs. destruct Hstep as
    [st jid info now Hnew | st gen1 gen2 now | st pre post jid o now Ht
    | st pre post jid timed_out marker now Ht | st jid now | st jid now
    | st iso pct now | st cutoff].
  - unfold add_job. simpl. by apply dict_values_set.
  - by apply process_job_queue_ok.
  - unfold finish_download, with_threads. simpl.
    destruct (dict_get (jobs st) jid) as [j|] eqn:Hg; [|done].
    pose proof (download_worker_ok o now j) as Hw.
    destruct (download_worker o now j) as [j1 e1]. simpl in *.
    apply dict_values_set; [done|]. apply Hw.
    rewrite Forall_forall in Hs. apply Hs. by eapply dict_get_values.
  - unfold burn_poll.
    destruct (dict_get (jobs st) jid) as [j|] eqn:Hg; [|exact Hs].
    pose proof (burn_loop_step_ok timed_out marker now j) as Hw.
    destruct (burn_loop_step timed_out marker now j) as [[j1 e1] keep]. simpl in *.
    apply dict_values_set; [done|]. apply Hw.
    rewrite Forall_forall in Hs. apply Hs. by eapply dict_get_values.
  - unfold cancel_job.
    destruct (dict_get (jobs st) jid) as [j|] eqn:Hg; [|done].
    destruct (is_finished (status j)); [done|].
    pose proof (update_status_ok j CANCELLED (Some "Cancelled by user") true now) as Hw.
    destruct (update_status j CANCELLED (Some "Cancelled by user") true now) as [j1 e1].
    simpl in *. apply dict_values_set; [done|]. apply Hw; [|by right].
    rewrite Forall_forall in Hs. apply Hs. by eapply dict_get_values.
  - unfold retry_job.
    destruct (dict_get (jobs st) jid) as [j|] eqn:Hg; [|done].
    destruct (update_status j PENDING None false now) as [j1 e1].
    simpl. by apply dict_values_set.
  - unfold on_download_progress.
    destruct (find _ (dict_values (jobs st))) as [j|] eqn:Hf; [|done]. simpl.
    apply dict_values_set; [done|].
    apply find_some in Hf as [Hin _]. change (job_ok j = true).
    rewrite Forall_forall in Hs. apply Hs. by apply list_elem_of_In.
  - unfold cleanup_completed_jobs, dict_values. simpl.
    rewrite Forall_forall in Hs |- *. intros j Hj.
    apply list_elem_of_fmap in Hj as ([k j'] & -> & Hj).
    apply list_elem_of_filter in Hj as [_ Hj]. apply Hs.
    apply list_elem_of_fmap. by exists (k, j').
Qed.

Lemma steps_ok (max_concurrent_jobs : Z) (st st' : QueueState) :
  rtc (step max_concurrent_jobs) st st' -> queue_ok st -> queue_ok st'.
Proof.
  induction 1 as [x|x y z Hxy Hyz IH]; [done|].
  intros Hx. apply IH. by apply (step_ok max_concurrent_jobs x y).
Qed.

(** C6, as amended: in every reachable state of the queue (operations and
    handler steps taken one at a time), a job that carries an error message
    is FAILED or CANCELLED.  The only writers of a message are the
    transitions into FAILED and [cancel_job]'s transition into CANCELLED
    ("Cancelled by user"); every other status change and [retry_job] clear
    it. *)
Theorem C6_error_message_only_failed_or_cancelled (max_concurrent_jobs : Z)
    (st : QueueState) (j : BurnJob) :
  reachable max_concurrent_jobs st -> j ∈ dict_values (jobs st) ->
  error_message j <> None -> status j = FAILED \/ status j = CANCELLED.
Proof.
  intros Hr Hin Herr.
  assert (Hs : queue_ok st).
  { apply (steps_ok max_concurrent_jobs empty_queue st Hr). unfold queue_ok. constructor. }
  unfold queue_ok in Hs. rewrite Forall_forall in Hs.
  specialize (Hs j Hin). unfold job_ok in Hs.
  destruct (error_message j); [|congruence].
  destruct (status j); simpl in Hs; try discriminate; auto.
Qed.

Lemma C6_error_message_only_failed_or_cancelled_witness :
  exists j, dict_get (jobs cancelled_pending) "job-A" = Some j /\
    (status j = FAILED \/ status j = CANCELLED).
Proof.
  exists (set_notification_sent (set_error_message (set_updated_at
    (set_status (new_job "job-A" (mkISOInfo "iso-A") 0) CANCELLED) 1)
    (Some "Cancelled by user")) false).
  split; [reflexivity|].
  apply (C6_error_message_only_failed_or_cancelled 3 cancelled_pending).
  - unfold reachable.
    apply rtc_l with (add_job "job-A" (mkISOInfo "iso-A") 0 empty_queue);
      [apply step_add; reflexivity|].
    apply rtc_l with cancelled_pending; [apply step_cancel|apply rtc_refl].
  - vm_compute. left.
  - discriminate.
Defined.

(** ** [update_status] without a status change *)

(** C9: [update_status] with the job's current status returns the job
    unchanged (status, [updated_at], [error_message], [notification_sent]
    and every other field) and makes no API write, whatever message and
    [job_queue] argument it is given. *)
Theorem C9_update_status_same_status_noop (j : BurnJob) (msg : option string)
    (api : bool) (now : Z) :
  update_status j (status j) msg api now = (j, []).
Proof.
  unfold update_status, status_eqb. by rewrite bool_decide_eq_true_2.
Qed.

(** ** Retry *)

(** C10: for any job in the table, whatever its status (terminal, active
    or PENDING), [retry_job] returns true and leaves the job PENDING with
    no paths, progress 0, no error message, [notification_sent] false and
    the same [retry_count]; the id is appended to the dispatch list, so it
    occurs there once more than before (twice if it was still queued). *)
Theorem C10_retry_job_unconditional (jid : string) (now : Z) (st : QueueState)
    (j : BurnJob) :
  dict_get (jobs st) jid = Some j ->
  let '(b, st') := retry_job jid now st in
  b = true /\
  (exists j', dict_get (jobs st') jid = Some j' /\ status j' = PENDING /\
     iso_path j' = None /\ jdf_path j' = None /\ progress j' = 0%Q /\
     error_message j' = None /\ notification_sent j' = false /\
     retry_count j' = retry_count j) /\
  job_queue st' = job_queue st ++ [jid] /\
  count_id jid (job_queue st') = S (count_id jid (job_queue st)).
Proof.
  intros Hg. unfold retry_job. rewrite Hg.
  unfold update_status.
  destruct (status_eqb (status j) PENDING) eqn:E; simpl.
  - split; [done|]. split.
    + eexists. split; [apply dict_get_set_eq|]. simpl.
      unfold status_eqb in E. apply bool_decide_eq_true in E.
      repeat split; auto.
    + split; [done|]. unfold count_id.
      rewrite filter_app, length_app, filter_cons_True by apply String.eqb_refl.
      simpl. lia.
  - split; [done|]. split.
    + eexists. split; [apply dict_get_set_eq|]. simpl. repeat split; auto.
    + split; [done|]. unfold count_id.
      rewrite filter_app, length_app, filter_cons_True by apply String.eqb_refl.
      simpl. lia.
Qed.

Lemma C10_retry_job_unconditional_witness :
  (retry_job "job-A" 2 cancelled_pending).1 = true /\
  count_id "job-A" (job_queue (retry_job "job-A" 2 add_then_retry).2) = 3%nat.
Proof.
  split.
  - pose proof (C10_retry_job_unconditional "job-A" 2 cancelled_pending
      (set_notification_sent (set_error_message (set_updated_at
        (set_status (new_job "job-A" (mkISOInfo "iso-A") 0) CANCELLED) 1)
        (Some "Cancelled by user")) false) eq_refl) as H.
    destruct (retry_job "job-A" 2 cancelled_pending) as [b st'].
    destruct H as [Hb _]. exact Hb.
  - pose proof (C10_retry_job_unconditional "job-A" 2 add_then_retry
      (set_notification_sent (set_progress (set_error_message
        (new_job "job-A" (mkISOInfo "iso-A") 0) None) 0%Q) false) eq_refl) as H.
    destruct (retry_job "job-A" 2 add_then_retry) as [b st'].
    destruct H as (_ & _ & _ & Hc). cbn [snd]. rewrite Hc. reflexivity.
Defined.

Lemma notify_loop_spec (i : nat) (cbs : list Callback) (j : BurnJob) :
  (notify_loop i cbs j).2 = inl tt /\
  invoked (notify_loop i cbs j).1 = map (fun k => (k, j)) (seq i (length cbs)) /\
  (forall k cb e, cbs !! k = Some cb -> cb j = Raised e ->
     LoggedError (String.append "Error in job update callback: " e)
       ∈ (notify_loop i cbs j).1).
Proof.
  revert i. induction cbs as [|cb cbs IH]; intros i; simpl.
  - split; [done|]. split; [done|]. intros k cb e H. done.
  - destruct (IH (S i)) as (Hr & Hinv & Hlog).
    unfold py_bind, py_try_except, call_callback, log_error.
    destruct (cb j) as [|err] eqn:Hcb; simpl;
      destruct (notify_loop (S i) cbs j) as [t r] eqn:E; simpl in *.
    + split; [done|]. split; [by rewrite Hinv|].
      intros [|k] cb' e Hk He; simpl in Hk.
      * injection Hk as <-. congruence.
      * right. by apply (Hlog k cb').
    + split; [done|]. split; [by rewrite Hinv|].
      intros [|k] cb' e Hk He; simpl in Hk.
      * injection Hk as <-. rewrite Hcb in He. injection He as <-. right. left.
      * right. right. by apply (Hlog k cb').
Qed.

(** C7: notifying [cbs] invokes every registered callback with the job,
    once each and in registration order, whatever exceptions earlier
    callbacks raised; each raised exception is logged, and no exception
    escapes [_notify_job_update]. *)
Theorem C7_notify_isolates_callbacks (cbs : list Callback) (j : BurnJob) :
  (notify_job_update cbs j).2 = inl tt /\
  invoked (notify_job_update cbs j).1 = map (fun k => (k, j)) (seq 0 (length cbs)) /\
  (forall k cb e, cbs !! k = Some cb -> cb j = Raised e ->
     LoggedError (String.append "Error in job update callback: " e)
       ∈ (notify_job_update cbs j).1).
Proof. apply notify_loop_spec. Qed.

Lemma C7_notify_isolates_callbacks_witness :
  LoggedError "Error in job update callback: boom"
    ∈ (notify_job_update [fun _ => Raised "boom"; fun _ => Returned]
         (new_job "job-A" (mkISOInfo "iso-A") 0)).1 /\
  invoked (notify_job_update [fun _ => Raised "boom"; fun _ => Returned]
            (new_job "job-A" (mkISOInfo "iso-A") 0)).1 =
    [(0%nat, new_job "job-A" (mkISOInfo "iso-A") 0);
     (1%nat, new_job "job-A" (mkISOInfo "iso-A") 0)].
Proof.
  destruct (C7_notify_isolates_callbacks [fun _ => Raised "boom"; fun _ => Returned]
              (new_job "job-A" (mkISOInfo "iso-A") 0)) as (_ & Hinv & Hlog).
  split.
  - apply (Hlog 0%nat (fun _ => Raised "boom") "boom"); reflexivity.
  - rewrite Hinv. reflexivity.
Defined.

Lemma dict_get_set_neq (d : list (string * BurnJob)) (k k' : string) (v : BurnJob) :
  k' <> k -> dict_get (dict_set d k v) k' = dict_get d k'.
Proof.
  intros Hne. induction d as [|[k0 v0] d IH]; simpl.
  - destruct (String.eqb_spec k' k); congruence.
  - destruct (String.eqb_spec k k0) as [->|Hk]; simpl.
    + destruct (String.eqb_spec k' k0); congruence.
    + by rewrite IH.
Qed.

Lemma existsb_iso_false (d : list (string * BurnJob)) (info : ISOInfo) :
  existsb (fun j => String.eqb (iso_id (iso_info j)) (iso_id info)) (dict_values d) = false ->
  iso_id info ∉ iso_ids d.
Proof.
  unfold iso_ids. intros Hex Hin. apply list_elem_of_fmap in Hin as (j & Hj & Hin).
  apply list_elem_of_In in Hin.
  assert (existsb (fun j => String.eqb (iso_id (iso_info j)) (iso_id info)) (dict_values d) = true)
    as Ht; [|congruence].
  apply existsb_exists. exists j. split; [done|]. rewrite Hj. apply String.eqb_refl.
Qed.

Lemma existsb_iso_true (d : list (string * BurnJob)) (info : ISOInfo) :
  existsb (fun j => String.eqb (iso_id (iso_info j)) (iso_id info)) (dict_values d) = true ->
  iso_id info ∈ iso_ids d.
Proof.
  unfold iso_ids. intros Hex. apply existsb_exists in Hex as (j & Hin & Hj).
  apply String.eqb_eq in Hj. apply list_elem_of_fmap. exists j. split; [done|].
  by apply list_elem_of_In.
Qed.

Lemma dict_set_absent (d : list (string * BurnJob)) (k : string) (v : BurnJob) :
  dict_get d k = None -> dict_set d k v = d ++ [(k, v)].
Proof.
  induction d as [|[k0 v0] d IH]; simpl; [done|].
  destruct (String.eqb_spec k k0); [discriminate|]. intros H. by rewrite IH.
Qed.

Lemma filter_length_pos (P : ISOInfo -> bool) (l : list ISOInfo) :
  (0 < length (filter (fun i => P i = true) l))%nat <-> exists i, i ∈ l /\ P i = true.
Proof.
  induction l as [|i l IH]; simpl.
  - split; [lia|]. intros (x & Hx & _). by apply not_elem_of_nil in Hx.
  - rewrite filter_cons. destruct (P i) eqn:Hp; simpl.
    + split; [intros _; exists i; split; [left|done]|lia].
    + rewrite IH. split.
      * intros (x & Hx & Hpx). exists x. split; [by right|done].
      * intros (x & Hx & Hpx). apply elem_of_cons in Hx as [->|Hx]; [congruence|].
        by exists x.
Qed.

(** The loop of [check_for_new_isos] with fresh job ids: it calls [add_job]
    for the sublist [added] of the items whose id has no job yet, each id
    once; the table and the dispatch list are extended by their jobs, and
    [added_count] grows by the number of them whose [save_job] returns. *)
Lemma add_new_isos_fresh (uuid : nat -> string) (save_ok : ISOInfo -> bool) (now : Z)
    (items : list ISOInfo) (w : WorkerState) (n : Z) :
  uuid_fresh uuid w ->
  exists added : list ISOInfo,
    let '(w', n') := add_new_isos uuid save_ok now items w n in
    last_api_check w' = last_api_check w /\
    uuid_draws w' = (uuid_draws w + length added)%nat /\
    jobs (wqueue w') = jobs (wqueue w) ++ new_entries uuid now (uuid_draws w) added /\
    job_queue (wqueue w') =
      job_queue (wqueue w) ++ map uuid (seq (uuid_draws w) (length added)) /\
    added `sublist_of` items /\
    NoDup (map iso_id added) /\
    (forall x, x ∈ map iso_id added <-> x ∈ map iso_id items /\ x ∉ iso_ids (jobs (wqueue w))) /\
    n' = n + Z.of_nat (length (filter (fun i => save_ok i = true) added)).
Proof.
  revert w n. induction items as [|info items IH]; intros w n Hfr; simpl.
  - exists []. simpl. rewrite app_nil_r, app_nil_r, Nat.add_0_r, Z.add_0_r.
    do 5 (split; [done|]). split; [constructor|]. split; [|done].
    intros x. split; [intros Hx; by apply not_elem_of_nil in Hx|].
    intros [Hx _]. by apply not_elem_of_nil in Hx.
  - destruct (existsb _ _) eqn:Hex.
    + apply existsb_iso_true in Hex.
      destruct (IH w n Hfr) as [added Hadd]. exists added.
      destruct (add_new_isos uuid save_ok now items w n) as [w' n'].
      destruct Hadd as (H1 & H2 & H3 & H4 & H5 & H6 & H7 & H8).
      do 4 (split; [done|]). split; [by apply sublist_cons|]. split; [done|].
      split; [|done]. intros x. rewrite H7, elem_of_cons.
      split; [tauto|]. intros [[->|Hx] Hn]; [done|tauto].
    + apply existsb_iso_false in Hex.
      destruct Hfr as [Hfr1 Hfr2].
      set (d := uuid_draws w).
      set (w1 := mkWorkerState (add_job (uuid d) info now (wqueue w))
                   (last_api_check w) (S d)).
      assert (Hset : jobs (wqueue w1) =
                     jobs (wqueue w) ++ [(uuid d, new_job (uuid d) info now)]).
      { cbn [w1 wqueue add_job jobs]. apply dict_set_absent, Hfr1. lia. }
      assert (Hfr' : uuid_fresh uuid w1).
      { split.
        - intros m Hm. cbn [uuid_draws w1] in Hm. cbn [w1 wqueue add_job jobs].
          rewrite dict_get_set_neq; [apply Hfr1; unfold d in *; lia|].
          intros He. apply Hfr2 in He; unfold d in *; lia.
        - intros m1 m2 Hm1 Hm2. cbn [uuid_draws w1] in Hm1, Hm2.
          apply Hfr2; unfold d in *; lia. }
      assert (Hiso : iso_ids (jobs (wqueue w1)) = iso_ids (jobs (wqueue w)) ++ [iso_id info]).
      { rewrite Hset. unfold iso_ids, dict_values. by rewrite !map_app. }
      destruct (save_ok info) eqn:Hs;
        [destruct (IH w1 (n + 1) Hfr') as [added Hadd]|
         destruct (IH w1 n Hfr') as [added Hadd]];
        exists (info :: added);
        destruct (add_new_isos _ _ _ _ _ _) as [w' n'];
        destruct Hadd as (H1 & H2 & H3 & H4 & H5 & H6 & H7 & H8);
        cbn [w1 uuid_draws last_api_check] in H1, H2, H3, H4;
        rewrite Hiso in H7.
      all: split; [done|]; split; [simpl; lia|].
      all: split; [rewrite H3, Hset; simpl; by rewrite <- app_assoc|].
      all: split; [rewrite H4; cbn [w1 wqueue add_job job_queue]; simpl;
                   by rewrite <- app_assoc|].
      all: split; [by apply sublist_skip|].
      all: split; [simpl; constructor; [|done];
                   intros Hin; apply H7 in Hin as [_ Hin]; apply Hin;
                   apply elem_of_app; right; left|].
      all: split; [intros x; simpl; rewrite !elem_of_cons, H7, elem_of_app,
                   list_elem_of_singleton; split;
                   [intros [->|[? ?]]; tauto|intros [[->|?] ?]; [by left|]];
                   destruct (decide (x = iso_id info)); [by left|right; tauto]|].
      all: rewrite H8, filter_cons, Hs; simpl; lia.
Qed.

Lemma job_uuid_fresh_worker : uuid_fresh job_uuid fresh_worker.
Proof.
  split; [done|]. intros n m _ _ H. unfold job_uuid in H. simpl in H.
  injection H as H. by apply (inj pretty).
Qed.

(** C8, counterexample: a query that succeeds but returns no items leaves
    [last_api_check] unset; and when [save_job] raises for the only new
    item, the poll returns false although [add_job] has put a job for it
    in the table and in the dispatch list. *)
Lemma C8_poll_divergences :
  (check_for_new_isos job_uuid (fun _ => true) 5 (QueryOk []) fresh_worker =
     (false, fresh_worker) /\
   last_api_check fresh_worker = None) /\
  (check_for_new_isos job_uuid (fun _ => false) 5 (QueryOk [mkISOInfo "iso-A"]) fresh_worker).1
    = false /\
  iso_ids (jobs (wqueue (check_for_new_isos job_uuid (fun _ => false) 5
    (QueryOk [mkISOInfo "iso-A"]) fresh_worker).2)) = ["iso-A"] /\
  job_queue (wqueue (check_for_new_isos job_uuid (fun _ => false) 5
    (QueryOk [mkISOInfo "iso-A"]) fresh_worker).2) = ["job-0"].
Proof. split; [split; reflexivity|]. split; [reflexivity|]. split; vm_compute; reflexivity. Qed.

(** C8, as amended: with fresh job ids, one run of the polling task on a
    non-empty item list calls [add_job] for the sublist [added] of the items
    whose ISO id has no job yet (before the run or from an earlier item of
    the run), once per id and in query order: the items whose id already
    has a job are skipped, the table keeps its entries and gains exactly
    the new PENDING jobs, and their ids are appended to the dispatch list.
    It returns true exactly when the [save_job] call of at least one of
    these jobs returns, and sets [last_api_check] to the run's time.  When
    the query raises or returns no items, it returns false and changes
    nothing. *)
Theorem C8_poll_result_and_timestamp (uuid : nat -> string) (save_ok : ISOInfo -> bool)
    (now : Z) (q : QueryOutcome) (w : WorkerState) :
  uuid_fresh uuid w ->
  let '(b, w') := check_for_new_isos uuid save_ok now q w in
  match q with
  | QueryOk ((_ :: _) as items) =>
      last_api_check w' = Some now /\
      exists added : list ISOInfo,
        added `sublist_of` items /\
        NoDup (map iso_id added) /\
        (forall x, x ∈ map iso_id added <-> x ∈ map iso_id items /\ x ∉ iso_ids (jobs (wqueue w))) /\
        jobs (wqueue w') = jobs (wqueue w) ++ new_entries uuid now (uuid_draws w) added /\
        job_queue (wqueue w') =
          job_queue (wqueue w) ++ map uuid (seq (uuid_draws w) (length added)) /\
        uuid_draws w' = (uuid_draws w + length added)%nat /\
        (b = true <-> exists info, info ∈ added /\ save_ok info = true)
  | _ => b = false /\ w' = w
  end.
Proof.
  intros Hfr. unfold check_for_new_isos.
  destruct q as [[|info items]|err]; [done| |done].
  destruct (add_new_isos_fresh uuid save_ok now (info :: items) w 0 Hfr) as [added Hadd].
  cbv beta iota.
  destruct (add_new_isos uuid save_ok now (info :: items) w 0) as [w' n].
  destruct Hadd as (H1 & H2 & H3 & H4 & H5 & H6 & H7 & H8).
  split; [done|]. exists added. cbn [wqueue uuid_draws].
  do 6 (split; [done|]).
  rewrite Z.ltb_lt, H8, <- filter_length_pos. lia.
Qed.

Lemma C8_poll_result_and_timestamp_witness :
  (check_for_new_isos job_uuid (fun i => String.eqb (iso_id i) "iso-B") 5
     (QueryOk [mkISOInfo "iso-A"; mkISOInfo "iso-B"; mkISOInfo "iso-A"]) fresh_worker).1 = true /\
  exists added : list ISOInfo,
    NoDup (map iso_id added) /\
    (forall x, x ∈ map iso_id added <-> x = "iso-A" \/ x = "iso-B").
Proof.
  pose proof (C8_poll_result_and_timestamp job_uuid (fun i => String.eqb (iso_id i) "iso-B") 5
    (QueryOk [mkISOInfo "iso-A"; mkISOInfo "iso-B"; mkISOInfo "iso-A"]) fresh_worker
    job_uuid_fresh_worker) as H.
  destruct (check_for_new_isos _ _ _ _ _) as [b w'].
  destruct H as (_ & added & Hsub & Hnd & Hmem & _ & _ & _ & Hb).
  split.
  - apply Hb. exists (mkISOInfo "iso-B"). split; [|reflexivity].
    assert (Hin : "iso-B" ∈ map iso_id added).
    { apply Hmem. split; [right; left|]. vm_compute. apply not_elem_of_nil. }
    apply list_elem_of_fmap in Hin as ([x] & Hx & Hin). simpl in Hx. by subst x.
  - exists added. split; [done|]. intros x. rewrite Hmem. split.
    + intros [Hx _]. simpl in Hx. apply elem_of_cons in Hx as [->|Hx]; [by left|].
      apply elem_of_cons in Hx as [->|Hx]; [by right|].
      apply list_elem_of_singleton in Hx as ->. by left.
    + intros Hx. split; [destruct Hx as [->| ->]; simpl; [left|right; left]|].
      vm_compute. apply not_elem_of_nil.
Defined.

(** ** Invariants of reachable states and further properties of the code *)


Lemma dict_set_keys (d : list (string * BurnJob)) (k : string) (v : BurnJob) :
  map fst (dict_set d k v) = if bool_decide (k ∈ map fst d) then map fst d else map fst d ++ [k].
Proof.
  induction d as [|[k0 v0] d IH]; simpl; [done|].
  destruct (String.eqb_spec k k0) as [->|Hk]; simpl.
  - rewrite bool_decide_true; [done|]. left.
  - rewrite IH. case_bool_decide as H1; case_bool_decide as H2; simpl; try done.
    + exfalso. apply H2. by right.
    + exfalso. apply elem_of_cons in H2 as [->|H2]; [done|tauto].
Qed.

Lemma dict_set_nodup (d : list (string * BurnJob)) (k : string) (v : BurnJob) :
  NoDup (map fst d) -> NoDup (map fst (dict_set d k v)).
Proof.
  intros Hd. rewrite dict_set_keys. case_bool_decide as H; [done|].
  apply NoDup_app. split; [done|]. split; [|apply NoDup_singleton].
  intros x Hx Hy. apply list_elem_of_singleton in Hy. subst. done.
Qed.

Lemma dict_set_forall (P : string * BurnJob -> Prop) (d : list (string * BurnJob))
    (k : string) (v : BurnJob) :
  Forall P d -> P (k, v) -> Forall P (dict_set d k v).
Proof.
  induction d as [|[k0 v0] d IH]; simpl; intros Hd Hv; [by constructor|].
  inversion Hd; subst.
  destruct (String.eqb_spec k k0) as [->|]; constructor; auto.
Qed.

Lemma dict_get_elem (d : list (string * BurnJob)) (k : string) (v : BurnJob) :
  dict_get d k = Some v -> (k, v) ∈ d.
Proof.
  induction d as [|[k0 v0] d IH]; simpl; [done|].
  destruct (String.eqb_spec k k0) as [->|]; intros H.
  - injection H as <-. left.
  - right. by apply IH.
Qed.

Lemma elem_dict_get (d : list (string * BurnJob)) (k : string) (v : BurnJob) :
  NoDup (map fst d) -> (k, v) ∈ d -> dict_get d k = Some v.
Proof.
  induction d as [|[k0 v0] d IH]; simpl; intros Hnd Hin; [by apply not_elem_of_nil in Hin|].
  apply NoDup_cons in Hnd as [Hn Hnd].
  apply elem_of_cons in Hin as [Heq|Hin].
  - injection Heq as -> ->. by rewrite String.eqb_refl.
  - destruct (String.eqb_spec k k0) as [->|]; [|by apply IH].
    exfalso. apply Hn. apply list_elem_of_fmap. by exists (k0, v).
Qed.

Lemma dict_values_elem (d : list (string * BurnJob)) (v : BurnJob) :
  v ∈ dict_values d -> exists k, (k, v) ∈ d.
Proof.
  unfold dict_values. intros H. apply list_elem_of_fmap in H as ([k v'] & -> & H).
  by exists k.
Qed.

(** In a table satisfying [table_inv], a job of the table is found under
    its own id. *)
Lemma table_inv_lookup (d : list (string * BurnJob)) (j : BurnJob) :
  table_inv d -> j ∈ dict_values d -> dict_get d (id j) = Some j /\ job_inv j = true.
Proof.
  intros [Hnd Hall] Hin. apply dict_values_elem in Hin as [k Hin].
  rewrite Forall_forall in Hall. destruct (Hall _ Hin) as [Hk Hj]; simpl in *.
  subst k. split; [by apply elem_dict_get|done].
Qed.

Lemma table_inv_get (d : list (string * BurnJob)) (k : string) (j : BurnJob) :
  table_inv d -> dict_get d k = Some j -> id j = k /\ job_inv j = true.
Proof.
  intros [_ Hall] Hg. apply dict_get_elem in Hg.
  rewrite Forall_forall in Hall. exact (Hall _ Hg).
Qed.

Lemma table_inv_set (d : list (string * BurnJob)) (j : BurnJob) :
  table_inv d -> job_inv j = true -> table_inv (dict_set d (id j) j).
Proof.
  intros [Hnd Hall] Hj. split; [by apply dict_set_nodup|].
  apply dict_set_forall; [done|]. simpl. auto.
Qed.

Lemma detect_disc_type_ok (file_size : Z) :
  match detect_disc_type file_size with inl d => disc_type_ok (Some d) = true | inr _ => True end.
Proof.
  unfold detect_disc_type.
  destruct (Qltb _ _); [done|]. by destruct (Qle_bool _ _).
Qed.

Ltac bool_hyps :=
  repeat match goal with
  | H : _ && _ = true |- _ => apply andb_prop in H as [? ?]
  | H : negb _ = true |- _ => apply negb_true_iff in H
  | H : negb _ = false |- _ => apply negb_false_iff in H
  end.

Arguments set_status _ _ /.
Arguments set_updated_at _ _ /.
Arguments set_iso_path _ _ /.
Arguments set_jdf_path _ _ /.
Arguments set_progress _ _ /.
Arguments set_error_message _ _ /.
Arguments set_notification_sent _ _ /.
Arguments set_disc_type _ _ /.

Ltac crush_inv :=
  repeat first
    [ progress simpl in *
    | progress bool_hyps
    | case_match ];
  simplify_eq; cbn;
  repeat match goal with
  | H : ?b = true |- context [?b] => rewrite H
  | H : ?b = false |- context [?b] => rewrite H
  end;
  rewrite ?bool_decide_false by discriminate; simpl; rewrite ?andb_true_r;
  try done.

Lemma start_job_processing_inv (gen : GenOutcome) (now : Z) (j : BurnJob) :
  job_inv j = true -> job_inv (start_job_processing gen now j).1.1 = true.
Proof.
  destruct j as [jid info st ca ua ip jp pr em rc ns dt].
  unfold start_job_processing, start_download, start_jdf_generation, queue_for_burning,
    start_burning, update_status, job_inv, status_eqb.
  intros Hj. destruct st; crush_inv.
Qed.

Lemma download_worker_inv (o : DownloadOutcome) (now : Z) (j : BurnJob) :
  job_inv j = true -> job_inv (download_worker o now j).1 = true.
Proof.
  destruct j as [jid info st ca ua ip jp pr em rc ns dt].
  unfold download_worker, download_failed, update_status, job_inv, status_eqb.
  intros Hj. destruct o as [p sz|p err| |err].
  - pose proof (detect_disc_type_ok sz) as Hd.
    destruct st; crush_inv.
  - destruct st; crush_inv.
  - destruct st; crush_inv.
  - destruct st; crush_inv.
Qed.

Lemma burn_loop_step_inv (timed_out : bool) (marker : MarkerStatus) (now : Z) (j : BurnJob) :
  job_inv j = true -> job_inv (burn_loop_step timed_out marker now j).1.1 = true.
Proof.
  destruct j as [jid info st ca ua ip jp pr em rc ns dt].
  unfold burn_loop_step, check_burn_status, update_status, job_inv, status_eqb.
  intros Hj. destruct st, marker; crush_inv.
Qed.

Lemma cancel_inv (j : BurnJob) (now : Z) :
  job_inv j = true ->
  job_inv (update_status j CANCELLED (Some "Cancelled by user") true now).1 = true.
Proof.
  destruct j as [jid info st ca ua ip jp pr em rc ns dt].
  unfold update_status, job_inv, status_eqb. intros Hj. destruct st; crush_inv.
Qed.

Lemma retry_inv (j : BurnJob) (now : Z) :
  job_inv j = true ->
  job_inv (set_jdf_path (set_iso_path (set_notification_sent (set_progress
    (set_error_message (update_status j PENDING None false now).1 None) 0%Q) false) None)
    None) = true.
Proof.
  destruct j as [jid info st ca ua ip jp pr em rc ns dt].
  unfold update_status, job_inv, status_eqb. intros Hj. destruct st; crush_inv.
Qed.

Lemma progress_inv (j : BurnJob) (pct : Q) (now : Z) :
  job_inv j = true -> job_inv (set_updated_at (set_progress j pct) now) = true.
Proof. by destruct j. Qed.

Lemma new_job_inv (jid : string) (info : ISOInfo) (now : Z) :
  job_inv (new_job jid info now) = true.
Proof. reflexivity. Qed.

(** The handlers keep the job's id. *)
Lemma update_status_id (j : BurnJob) (s : JobStatus) (msg : option string) (api : bool) (now : Z) :
  id (update_status j s msg api now).1 = id j.
Proof. unfold update_status. by destruct (status_eqb _ _). Qed.

Ltac crush_id :=
  repeat first [ progress simpl in * | case_match ]; simplify_eq;
  rewrite ?update_status_id; try done.

Lemma start_job_processing_id (gen : GenOutcome) (now : Z) (j : BurnJob) :
  id (start_job_processing gen now j).1.1 = id j.
Proof.
  destruct j as [jid info st ca ua ip jp pr em rc ns dt].
  unfold start_job_processing, start_download, start_jdf_generation, queue_for_burning,
    start_burning, update_status.
  destruct st; crush_id.
Qed.

Lemma download_worker_id (o : DownloadOutcome) (now : Z) (j : BurnJob) :
  id (download_worker o now j).1 = id j.
Proof.
  destruct j as [jid info st ca ua ip jp pr em rc ns dt].
  unfold download_worker, download_failed, update_status. destruct o, st; crush_id.
Qed.

Lemma burn_loop_step_id (timed_out : bool) (marker : MarkerStatus) (now : Z) (j : BurnJob) :
  id (burn_loop_step timed_out marker now j).1.1 = id j.
Proof.
  destruct j as [jid info st ca ua ip jp pr em rc ns dt].
  unfold burn_loop_step, check_burn_status, update_status. destruct st, marker; crush_id.
Qed.

Lemma filter_keys_nodup (f : string * BurnJob -> Prop) `{!forall p, Decision (f p)}
    (d : list (string * BurnJob)) :
  NoDup (map fst d) -> NoDup (map fst (filter f d)).
Proof.
  induction d as [|[k v] d IH]; simpl; intros Hnd; [constructor|].
  apply NoDup_cons in Hnd as [Hn Hnd].
  rewrite filter_cons. case_decide; simpl; [|by apply IH].
  constructor; [|by apply IH].
  intros Hk. apply Hn. apply list_elem_of_In in Hk. apply list_elem_of_In.
  apply in_map_iff in Hk as ([k' v'] & Hk' & Hin). simpl in Hk'. subst k'.
  apply in_map_iff. exists (k, v'). split; [done|].
  apply list_elem_of_In in Hin. apply list_elem_of_In.
  by apply list_elem_of_filter in Hin as [_ Hin].
Qed.

Lemma commit_inv (st : QueueState) (j : BurnJob) (gen : GenOutcome) (now : Z) :
  table_inv (jobs st) -> job_inv j = true ->
  table_inv (jobs (commit st (start_job_processing gen now j))).
Proof.
  intros Hs Hj.
  pose proof (start_job_processing_inv gen now j Hj) as Hj'.
  destruct (start_job_processing gen now j) as [[j' evs] ths]. simpl in *.
  by apply table_inv_set.
Qed.

Lemma check_ready_loop_inv (max_concurrent_jobs : Z) (gen : GenOutcome) (now : Z)
    (ready : list BurnJob) (st : QueueState) :
  Forall (fun j => job_inv j = true) ready -> table_inv (jobs st) ->
  table_inv (jobs (check_ready_loop max_concurrent_jobs gen now ready st)).
Proof.
  induction ready as [|j ready IH]; simpl; intros Hr Hs; [done|].
  inversion Hr; subst.
  destruct (Z.of_nat (active_jobs (jobs st)) <? max_concurrent_jobs); [by apply commit_inv|].
  by apply IH.
Qed.

Lemma values_inv (d : list (string * BurnJob)) :
  table_inv d -> Forall (fun j => job_inv j = true) (dict_values d).
Proof.
  intros Hd. apply Forall_forall. intros j Hj. by apply (table_inv_lookup d j).
Qed.

Lemma process_job_queue_inv (max_concurrent_jobs : Z) (gen1 gen2 : GenOutcome)
    (now : Z) (st : QueueState) :
  table_inv (jobs st) ->
  table_inv (jobs (process_job_queue max_concurrent_jobs gen1 gen2 now st)).
Proof.
  intros Hs. unfold process_job_queue, get_next_job.
  destruct (get_next_job_loop max_concurrent_jobs (jobs st) (job_queue st))
    as [[j|] q'] eqn:E; simpl.
  - apply get_next_job_loop_in in E.
    destruct (table_inv_lookup _ _ Hs E) as [_ Hj].
    pose proof (commit_inv (mkQueueState (jobs st) q' (threads st) (events st)) j gen1 now
                  Hs Hj) as Hs2.
    unfold check_ready_jobs. apply check_ready_loop_inv; [|done].
    apply Forall_filter_sub. by apply values_inv.
  - unfold check_ready_jobs. apply check_ready_loop_inv; [|done].
    apply Forall_filter_sub. by apply values_inv.
Qed.

(** Every step keeps [table_inv]. *)
Lemma step_inv (max_concurrent_jobs : Z) (st st' : QueueState) :
  step max_concurrent_jobs st st' -> table_inv (jobs st) -> table_inv (jobs st').
Proof.
  intros Hstep Hs. destruct Hstep as
    [st jid info now Hnew | st gen1 gen2 now | st pre post jid o now Ht
    | st pre post jid timed_out marker now Ht | st jid now | st jid now
    | st iso pct now | st cutoff].
  - unfold add_job. simpl.
    apply (table_inv_set _ (new_job jid info now)); [done|apply new_job_inv].
  - by apply process_job_queue_inv.
  - unfold finish_download, with_threads. simpl.
    destruct (dict_get (jobs st) jid) as [j|] eqn:Hg; [|done].
    destruct (table_inv_get _ _ _ Hs Hg) as [Hid Hj].
    pose proof (download_worker_inv o now j Hj) as Hw.
    pose proof (download_worker_id o now j) as Hwid.
    destruct (download_worker o now j) as [j1 e1]. simpl in *.
    rewrite <- Hid, <- Hwid. by apply table_inv_set.
  - unfold burn_poll.
    destruct (dict_get (jobs st) jid) as [j|] eqn:Hg; [|exact Hs].
    destruct (table_inv_get _ _ _ Hs Hg) as [Hid Hj].
    pose proof (burn_loop_step_inv timed_out marker now j Hj) as Hw.
    pose proof (burn_loop_step_id timed_out marker now j) as Hwid.
    destruct (burn_loop_step timed_out marker now j) as [[j1 e1] keep]. simpl in *.
    rewrite <- Hid, <- Hwid. by apply table_inv_set.
  - unfold cancel_job.
    destruct (dict_get (jobs st) jid) as [j|] eqn:Hg; [|done].
    destruct (is_finished (status j)); [done|].
    destruct (table_inv_get _ _ _ Hs Hg) as [Hid Hj].
    pose proof (cancel_inv j now Hj) as Hw.
    pose proof (update_status_id j CANCELLED (Some "Cancelled by user") true now) as Hwid.
    destruct (update_status j CANCELLED (Some "Cancelled by user") true now) as [j1 e1].
    simpl in *. rewrite <- Hid, <- Hwid. by apply table_inv_set.
  - unfold retry_job.
    destruct (dict_get (jobs st) jid) as [j|] eqn:Hg; [|done].
    destruct (table_inv_get _ _ _ Hs Hg) as [Hid Hj].
    pose proof (retry_inv j now Hj) as Hw.
    pose proof (update_status_id j PENDING None false now) as Hwid.
    destruct (update_status j PENDING None false now) as [j1 e1].
    simpl in *. rewrite <- Hid, <- Hwid.
    by apply (table_inv_set _ (set_jdf_path (set_iso_path (set_notification_sent
      (set_progress (set_error_message j1 None) 0%Q) false) None) None)).
  - unfold on_download_progress.
    destruct (find _ (dict_values (jobs st))) as [j|] eqn:Hf; [|done]. simpl.
    apply find_some in Hf as [Hin _]. apply list_elem_of_In in Hin.
    destruct (table_inv_lookup _ _ Hs Hin) as [_ Hj].
    apply (table_inv_set _ (set_updated_at (set_progress j pct) now)); [done|].
    by apply progress_inv.
  - unfold cleanup_completed_jobs. simpl. destruct Hs as [Hnd Hall]. split.
    + by apply filter_keys_nodup.
    + by apply Forall_filter_sub.
Qed.

Lemma steps_inv (max_concurrent_jobs : Z) (st st' : QueueState) :
  rtc (step max_concurrent_jobs) st st' -> table_inv (jobs st) -> table_inv (jobs st').
Proof.
  induction 1 as [x|x y z Hxy Hyz IH]; [done|].
  intros Hx. apply IH. by apply (step_inv max_concurrent_jobs x y).
Qed.

Lemma reachable_inv (max_concurrent_jobs : Z) (st : QueueState) :
  reachable max_concurrent_jobs st -> table_inv (jobs st).
Proof.
  intros Hr. apply (steps_inv max_concurrent_jobs empty_queue st Hr). split; constructor.
Qed.

Lemma run_completed_reachable : reachable 3 run_completed.
Proof.
  unfold reachable.
  apply rtc_l with run_added; [apply step_add; reflexivity|].
  apply rtc_l with run_downloading; [apply step_tick|].
  apply rtc_l with run_downloaded; [apply (step_download _ _ [] []); reflexivity|].
  apply rtc_l with run_jdf_ready; [apply step_tick|].
  apply rtc_l with run_queued; [apply step_tick|].
  apply rtc_l with run_burning; [apply step_tick|].
  apply rtc_l with run_completed; [apply (step_burn _ _ [] []); reflexivity|].
  apply rtc_refl.
Qed.

Ltac crush_ev :=
  repeat first [ progress simpl in * | case_match ]; simplify_eq; try done.

Lemma start_job_processing_events (gen : GenOutcome) (now : Z) (j : BurnJob) :
  events_ok (start_job_processing gen now j).1.2 = true.
Proof.
  destruct j as [jid info st ca ua ip jp pr em rc ns dt].
  unfold start_job_processing, start_download, start_jdf_generation, queue_for_burning,
    start_burning, update_status, events_ok, status_eqb.
  destruct st; crush_ev.
Qed.

Lemma download_worker_events (o : DownloadOutcome) (now : Z) (j : BurnJob) :
  events_ok (download_worker o now j).2 = true.
Proof.
  destruct j as [jid info st ca ua ip jp pr em rc ns dt].
  unfold download_worker, download_failed, update_status, events_ok, status_eqb.
  destruct o, st; crush_ev.
Qed.

Lemma burn_loop_step_events (timed_out : bool) (marker : MarkerStatus) (now : Z) (j : BurnJob) :
  events_ok (burn_loop_step timed_out marker now j).1.2 = true.
Proof.
  destruct j as [jid info st ca ua ip jp pr em rc ns dt].
  unfold burn_loop_step, check_burn_status, update_status, events_ok, status_eqb.
  destruct st, marker; crush_ev.
Qed.

Lemma events_ok_app (l1 l2 : list Event) :
  events_ok (l1 ++ l2) = events_ok l1 && events_ok l2.
Proof. apply forallb_app. Qed.

Lemma commit_events (st : QueueState) (gen : GenOutcome) (now : Z) (j : BurnJob) :
  events_ok (events st) = true ->
  events_ok (events (commit st (start_job_processing gen now j))) = true.
Proof.
  intros He. pose proof (start_job_processing_events gen now j) as Hj.
  destruct (start_job_processing gen now j) as [[j' evs] ths]. simpl in *.
  by rewrite events_ok_app, He, Hj.
Qed.

Lemma check_ready_loop_events (max_concurrent_jobs : Z) (gen : GenOutcome) (now : Z)
    (ready : list BurnJob) (st : QueueState) :
  events_ok (events st) = true ->
  events_ok (events (check_ready_loop max_concurrent_jobs gen now ready st)) = true.
Proof.
  induction ready as [|j ready IH]; simpl; intros He; [done|].
  destruct (_ <? _); [by apply commit_events|by apply IH].
Qed.

Lemma step_events (max_concurrent_jobs : Z) (st st' : QueueState) :
  step max_concurrent_jobs st st' -> events_ok (events st) = true ->
  events_ok (events st') = true.
Proof.
  intros Hstep He. destruct Hstep as
    [st jid info now Hnew | st gen1 gen2 now | st pre post jid o now Ht
    | st pre post jid timed_out marker now Ht | st jid now | st jid now
    | st iso pct now | st cutoff].
  - simpl. by rewrite events_ok_app, He.
  - unfold process_job_queue, get_next_job.
    destruct (get_next_job_loop _ _ _) as [[j|] q']; unfold check_ready_jobs;
      apply check_ready_loop_events; [by apply commit_events|done].
  - unfold finish_download, with_threads. simpl.
    destruct (dict_get (jobs st) jid) as [j|]; [|done].
    pose proof (download_worker_events o now j) as Hw.
    destruct (download_worker o now j) as [j1 e1]. simpl in *.
    by rewrite events_ok_app, He, Hw.
  - unfold burn_poll.
    destruct (dict_get (jobs st) jid) as [j|]; [|done].
    pose proof (burn_loop_step_events timed_out marker now j) as Hw.
    destruct (burn_loop_step timed_out marker now j) as [[j1 e1] keep]. simpl in *.
    by rewrite events_ok_app, He, Hw.
  - unfold cancel_job.
    destruct (dict_get (jobs st) jid) as [j|]; [|done].
    destruct (is_finished (status j)) eqn:Hf; [done|].
    destruct j as [jid' info st0 ca ua ip jp pr em rc ns dt].
    unfold update_status, status_eqb. simpl in Hf.
    destruct st0; simpl in *; try discriminate;
      rewrite !events_ok_app, He; simpl; by try case_match.
  - unfold retry_job.
    destruct (dict_get (jobs st) jid) as [j|]; [|done].
    destruct j as [jid' info st0 ca ua ip jp pr em rc ns dt].
    unfold update_status, status_eqb.
    destruct st0; simpl; rewrite !events_ok_app, He; done.
  - unfold on_download_progress.
    destruct (find _ _); [|done]. simpl. by rewrite events_ok_app, He.
  - done.
Qed.

Lemma steps_events (max_concurrent_jobs : Z) (st st' : QueueState) :
  rtc (step max_concurrent_jobs) st st' -> events_ok (events st) = true ->
  events_ok (events st') = true.
Proof.
  induction 1 as [x|x y z Hxy Hyz IH]; [done|].
  intros Hx. apply IH. by apply (step_events max_concurrent_jobs x y).
Qed.

Lemma reachable_job_inv (max_concurrent_jobs : Z) (st : QueueState) (j : BurnJob) :
  reachable max_concurrent_jobs st -> j ∈ get_all_jobs st -> job_inv j = true.
Proof.
  intros Hr Hj. exact (proj2 (table_inv_lookup _ _ (reachable_inv _ _ Hr) Hj)).
Qed.

Lemma reachable_events_ok (max_concurrent_jobs : Z) (st : QueueState) :
  reachable max_concurrent_jobs st -> events_ok (events st) = true.
Proof. intros Hr. by apply (steps_events max_concurrent_jobs empty_queue st Hr). Qed.

Lemma active_jobs_no_verifying (d : list (string * BurnJob)) :
  Forall (fun j => status j <> VERIFYING) (dict_values d) ->
  active_jobs d =
    (length (filter (fun j => status_eqb (status j) DOWNLOADING = true) (dict_values d))
     + length (filter (fun j => status_eqb (status j) BURNING = true) (dict_values d)))%nat.
Proof.
  unfold active_jobs. generalize (dict_values d) as l.
  induction l as [|j l IH]; simpl; intros Hl; [done|].
  inversion Hl as [|? ? Hj Hl']; subst.
  rewrite !filter_cons. unfold status_eqb.
  destruct (status j); simpl; rewrite ?IH by done; try lia; done.
Qed.

(** X1: in every reachable state the job table has no duplicate key and
    every job is stored under its own id. *)
Theorem reachable_jobs_keyed_by_id (max_concurrent_jobs : Z) (st : QueueState) :
  reachable max_concurrent_jobs st ->
  NoDup (map fst (jobs st)) /\
  forall (k : string) (j : BurnJob), get_job st k = Some j -> id j = k.
Proof.
  intros Hr. pose proof (reachable_inv _ _ Hr) as Hs. split; [apply Hs|].
  intros k j Hg. exact (proj1 (table_inv_get _ _ _ Hs Hg)).
Qed.

Lemma reachable_jobs_keyed_by_id_witness :
  NoDup (map fst (jobs run_completed)) /\
  forall (k : string) (j : BurnJob), get_job run_completed k = Some j -> id j = k.
Proof. apply (reachable_jobs_keyed_by_id 3 run_completed). apply run_completed_reachable. Defined.

(** X2: no reachable job is VERIFYING, so the admission gate's count of
    active jobs is the number of DOWNLOADING plus BURNING jobs that
    [get_queue_status] reports. *)
Theorem reachable_no_verifying (max_concurrent_jobs : Z) (st : QueueState) :
  reachable max_concurrent_jobs st ->
  get_jobs_by_status st VERIFYING = [] /\
  active_jobs (jobs st) =
    (qs_downloading (get_queue_status max_concurrent_jobs st)
     + qs_burning (get_queue_status max_concurrent_jobs st))%nat.
Proof.
  intros Hr.
  assert (Hnv : Forall (fun j => status j <> VERIFYING) (dict_values (jobs st))).
  { apply Forall_forall. intros j Hj.
    pose proof (reachable_job_inv _ _ _ Hr Hj) as Hi. unfold job_inv, status_eqb in Hi.
    intros Hv. rewrite Hv in Hi. done. }
  split.
  - unfold get_jobs_by_status. revert Hnv. generalize (dict_values (jobs st)) as l.
    induction l as [|j l IH]; intros Hl; [done|].
    inversion Hl as [|? ? Hj Hl']; subst. rewrite filter_cons.
    case_decide as Hd; [|by apply IH].
    unfold status_eqb in Hd. by apply bool_decide_eq_true in Hd.
  - unfold get_queue_status. simpl. by apply active_jobs_no_verifying.
Qed.

Lemma reachable_no_verifying_witness :
  get_jobs_by_status run_completed VERIFYING = [] /\
  active_jobs (jobs run_completed) =
    (qs_downloading (get_queue_status 3 run_completed)
     + qs_burning (get_queue_status 3 run_completed))%nat.
Proof. apply (reachable_no_verifying 3 run_completed). apply run_completed_reachable. Defined.

(** X3: [increment_retry] is never called, so every job of a reachable
    state has [retry_count = 0]. *)
Theorem reachable_retry_count_zero (max_concurrent_jobs : Z) (st : QueueState) (j : BurnJob) :
  reachable max_concurrent_jobs st -> j ∈ get_all_jobs st -> retry_count j = 0.
Proof.
  intros Hr Hj. pose proof (reachable_job_inv _ _ _ Hr Hj) as Hi.
  unfold job_inv in Hi. apply andb_prop in Hi as [Hi _]. apply andb_prop in Hi as [Hi _].
  apply andb_prop in Hi as [Hi _]. apply andb_prop in Hi as [_ Hi]. by apply Z.eqb_eq.
Qed.

Lemma reachable_retry_count_zero_witness : retry_count completed_job_A = 0.
Proof.
  apply (reachable_retry_count_zero 3 run_completed).
  - apply run_completed_reachable.
  - vm_compute. left.
Defined.

(** X4: the disc type of a job of a reachable state is unset, "CD" or "DVD". *)
Theorem reachable_disc_type (max_concurrent_jobs : Z) (st : QueueState) (j : BurnJob) :
  reachable max_concurrent_jobs st -> j ∈ get_all_jobs st ->
  disc_type j = None \/ disc_type j = Some "CD" \/ disc_type j = Some "DVD".
Proof.
  intros Hr Hj. pose proof (reachable_job_inv _ _ _ Hr Hj) as Hi.
  unfold job_inv in Hi. apply andb_prop in Hi as [Hi _]. apply andb_prop in Hi as [Hi _].
  apply andb_prop in Hi as [_ Hi]. unfold disc_type_ok in Hi.
  destruct (disc_type j) as [t|]; [right|by left].
  apply orb_prop in Hi as [Hi|Hi]; apply String.eqb_eq in Hi; subst; auto.
Qed.

Lemma reachable_disc_type_witness :
  disc_type completed_job_A = None \/ disc_type completed_job_A = Some "CD" \/
  disc_type completed_job_A = Some "DVD".
Proof.
  apply (reachable_disc_type 3 run_completed).
  - apply run_completed_reachable.
  - vm_compute. left.
Defined.

(** X5: in a reachable state, a job at DOWNLOADED or a later stage of the
    pipeline has a non-empty [iso_path], and a job at JDF_READY or later has
    a [jdf_path]. *)
Theorem reachable_paths_set (max_concurrent_jobs : Z) (st : QueueState) (j : BurnJob) :
  reachable max_concurrent_jobs st -> j ∈ get_all_jobs st ->
  (status j ∈ [DOWNLOADED; GENERATING_JDF; JDF_READY; QUEUED_FOR_BURNING; BURNING; COMPLETED] ->
   exists p, iso_path j = Some p /\ p <> "") /\
  (status j ∈ [JDF_READY; QUEUED_FOR_BURNING; BURNING; COMPLETED] ->
   exists p, jdf_path j = Some p).
Proof.
  intros Hr Hj. pose proof (reachable_job_inv _ _ _ Hr Hj) as Hi.
  unfold job_inv in Hi. apply andb_prop in Hi as [Hi Hjdf]. apply andb_prop in Hi as [_ Hiso].
  split; intros Hs.
  - assert (needs_iso_path (status j) = true) as Hn
      by (repeat (apply elem_of_cons in Hs as [->|Hs]; [done|]); by apply not_elem_of_nil in Hs).
    rewrite Hn in Hiso. simpl in Hiso. unfold truthy_path in Hiso.
    destruct (iso_path j) as [p|]; [|done]. exists p. split; [done|].
    intros ->. done.
  - assert (needs_jdf_path (status j) = true) as Hn
      by (repeat (apply elem_of_cons in Hs as [->|Hs]; [done|]); by apply not_elem_of_nil in Hs).
    rewrite Hn in Hjdf. simpl in Hjdf. apply bool_decide_eq_true in Hjdf. exact Hjdf.
Qed.

Lemma reachable_paths_set_witness :
  (status completed_job_A ∈ [DOWNLOADED; GENERATING_JDF; JDF_READY; QUEUED_FOR_BURNING;
                             BURNING; COMPLETED] ->
   exists p, iso_path completed_job_A = Some p /\ p <> "") /\
  (status completed_job_A ∈ [JDF_READY; QUEUED_FOR_BURNING; BURNING; COMPLETED] ->
   exists p, jdf_path completed_job_A = Some p).
Proof.
  apply (reachable_paths_set 3 run_completed).
  - apply run_completed_reachable.
  - vm_compute. left.
Defined.

(** X6: every API status write in the log of a reachable state reports
    COMPLETED without a message or FAILED with a message. *)
Theorem reachable_api_updates (max_concurrent_jobs : Z) (st : QueueState)
    (iso : string) (s : JobStatus) (err : option string) :
  reachable max_concurrent_jobs st -> EvApiUpdate iso s err ∈ events st ->
  (s = COMPLETED /\ err = None) \/ (s = FAILED /\ exists m, err = Some m).
Proof.
  intros Hr Hin. pose proof (reachable_events_ok _ _ Hr) as He.
  unfold events_ok in He. rewrite forallb_forall in He.
  apply list_elem_of_In in Hin. specialize (He _ Hin). simpl in He.
  destruct s; try discriminate; destruct err; try discriminate; eauto.
Qed.

Lemma reachable_api_updates_witness :
  (COMPLETED = COMPLETED /\ @None string = None) \/
  (COMPLETED = FAILED /\ exists m, @None string = Some m).
Proof.
  apply (reachable_api_updates 3 run_completed "iso-A" COMPLETED None).
  - apply run_completed_reachable.
  - vm_compute. apply list_elem_of_In. simpl. tauto.
Defined.

Lemma dict_get_filter (P : string * BurnJob -> Prop) `{!forall p, Decision (P p)}
    (d : list (string * BurnJob)) (k : string) :
  NoDup (map fst d) ->
  dict_get (filter P d) k =
    match dict_get d k with
    | Some j => if decide (P (k, j)) then Some j else None
    | None => None
    end.
Proof.
  induction d as [|[k0 v0] d IH]; simpl; intros Hnd; [done|].
  apply NoDup_cons in Hnd as [Hn Hnd].
  rewrite filter_cons. destruct (String.eqb_spec k k0) as [->|Hk].
  - assert (dict_get d k0 = None) as Hnone.
    { destruct (dict_get d k0) as [v|] eqn:E; [|done].
      exfalso. apply Hn. apply list_elem_of_fmap. exists (k0, v). split; [done|].
      by apply dict_get_elem. }
    case_decide as Hp; simpl.
    + by rewrite String.eqb_refl.
    + rewrite IH by done. by rewrite Hnone.
  - case_decide; simpl; [|by apply IH].
    destruct (String.eqb_spec k k0); [done|]. by apply IH.
Qed.

Lemma keyed_get_eq (d : list (string * BurnJob)) (j0 j : BurnJob) (k : string) :
  table_inv d -> j0 ∈ dict_values d -> dict_get d k = Some j -> id j0 = k -> j0 = j.
Proof.
  intros Hs Hj0 Hg <-. destruct (table_inv_lookup _ _ Hs Hj0) as [Hg0 _]. congruence.
Qed.

Lemma start_job_processing_cancelled (gen : GenOutcome) (now : Z) (j : BurnJob) :
  status j = CANCELLED -> start_job_processing gen now j = (j, [], []).
Proof. intros Hs. unfold start_job_processing, status_eqb. by rewrite Hs. Qed.

Lemma commit_keeps_cancelled (st : QueueState) (gen : GenOutcome) (now : Z)
    (j0 j : BurnJob) (k : string) :
  table_inv (jobs st) -> j0 ∈ dict_values (jobs st) ->
  dict_get (jobs st) k = Some j -> status j = CANCELLED ->
  dict_get (jobs (commit st (start_job_processing gen now j0))) k = Some j.
Proof.
  intros Hs Hj0 Hg Hc.
  destruct (String.eq_dec (id j0) k) as [Hk|Hk].
  - pose proof (keyed_get_eq _ _ _ _ Hs Hj0 Hg Hk) as <-.
    rewrite start_job_processing_cancelled by done. simpl. rewrite Hk.
    apply dict_get_set_eq.
  - pose proof (start_job_processing_id gen now j0) as Hid.
    destruct (start_job_processing gen now j0) as [[j1 e1] t1]. simpl in *.
    rewrite dict_get_set_neq by congruence. done.
Qed.

Lemma check_ready_loop_keeps_cancelled (max_concurrent_jobs : Z) (gen : GenOutcome)
    (now : Z) (ready : list BurnJob) (st : QueueState) (j : BurnJob) (k : string) :
  table_inv (jobs st) -> Forall (fun j0 => j0 ∈ dict_values (jobs st)) ready ->
  dict_get (jobs st) k = Some j -> status j = CANCELLED ->
  dict_get (jobs (check_ready_loop max_concurrent_jobs gen now ready st)) k = Some j.
Proof.
  induction ready as [|j0 ready IH]; simpl; intros Hs Hr Hg Hc; [done|].
  inversion Hr; subst.
  destruct (_ <? _); [by eapply commit_keeps_cancelled|by apply IH].
Qed.

Lemma filter_sub_elem {A} (Q : A -> Prop) `{!forall x, Decision (Q x)} (l : list A) :
  Forall (fun x => x ∈ l) (filter Q l).
Proof. apply Forall_forall. intros x Hx. by apply list_elem_of_filter in Hx as [_ Hx]. Qed.

Lemma download_worker_cancelled (o : DownloadOutcome) (now : Z) (j : BurnJob) :
  status j = CANCELLED ->
  status (download_worker o now j).1 = CANCELLED \/ status (download_worker o now j).1 = FAILED.
Proof.
  destruct j as [jid info st ca ua ip jp pr em rc ns dt]. simpl. intros ->.
  unfold download_worker, download_failed, update_status, status_eqb.
  destruct o; repeat (simpl; try case_match); simplify_eq; simpl; auto.
Qed.

Lemma burn_loop_step_not_burning (timed_out : bool) (marker : MarkerStatus) (now : Z)
    (j : BurnJob) :
  status j <> BURNING -> burn_loop_step timed_out marker now j = (j, [], false).
Proof.
  intros Hs. unfold burn_loop_step, status_eqb. by rewrite bool_decide_false.
Qed.

(** X7: from a reachable state, one step leaves a CANCELLED job in the
    table, and it is then still CANCELLED, back to PENDING (by [retry_job]),
    or FAILED (its download thread raised or found the file too large). *)
Theorem reachable_cancelled_exits (max_concurrent_jobs : Z) (st st' : QueueState)
    (k : string) (j : BurnJob) :
  reachable max_concurrent_jobs st -> step max_concurrent_jobs st st' ->
  get_job st k = Some j -> status j = CANCELLED ->
  exists j', get_job st' k = Some j' /\
    (status j' = CANCELLED \/ status j' = PENDING \/ status j' = FAILED).
Proof.
  unfold get_job. intros Hr Hstep Hg Hc.
  pose proof (reachable_inv _ _ Hr) as Hs.
  destruct Hstep as
    [st jid info now Hnew | st gen1 gen2 now | st pre post jid o now Ht
    | st pre post jid timed_out marker now Ht | st jid now | st jid now
    | st iso pct now | st cutoff].
  - exists j. simpl. rewrite dict_get_set_neq by congruence. auto.
  - exists j. split; [|auto].
    unfold process_job_queue, get_next_job.
    destruct (get_next_job_loop _ _ _) as [[j0|] q'] eqn:E; unfold check_ready_jobs.
    + apply get_next_job_loop_in in E.
      set (st1 := mkQueueState (jobs st) q' (threads st) (events st)).
      pose proof (commit_inv st1 j0 gen1 now Hs
                    (proj2 (table_inv_lookup _ _ Hs E))) as Hs2.
      apply check_ready_loop_keeps_cancelled; [done|apply filter_sub_elem| |done].
      by apply (commit_keeps_cancelled st1).
    + apply check_ready_loop_keeps_cancelled; [done|apply filter_sub_elem|done|done].
  - unfold finish_download, with_threads. simpl.
    destruct (dict_get (jobs st) jid) as [j0|] eqn:Hg0; [|by exists j; auto].
    simpl. destruct (String.eq_dec jid k) as [<-|Hk].
    + assert (j0 = j) as -> by congruence.
      pose proof (download_worker_cancelled o now j Hc) as Hw.
      destruct (download_worker o now j) as [j1 e1]. simpl in *.
      exists j1. rewrite dict_get_set_eq. split; [done|]. tauto.
    + destruct (download_worker o now j0) as [j1 e1]. simpl.
      exists j. rewrite dict_get_set_neq by congruence. auto.
  - unfold burn_poll.
    destruct (dict_get (jobs st) jid) as [j0|] eqn:Hg0; [|by exists j; auto].
    destruct (String.eq_dec jid k) as [<-|Hk].
    + assert (j0 = j) as -> by congruence.
      rewrite burn_loop_step_not_burning by congruence. simpl.
      exists j. rewrite dict_get_set_eq. auto.
    + destruct (burn_loop_step timed_out marker now j0) as [[j1 e1] keep]. simpl.
      exists j. rewrite dict_get_set_neq by congruence. auto.
  - unfold cancel_job.
    destruct (dict_get (jobs st) jid) as [j0|] eqn:Hg0; [|by exists j; auto].
    destruct (String.eq_dec jid k) as [<-|Hk].
    + assert (j0 = j) as -> by congruence. rewrite Hc. simpl. exists j. auto.
    + destruct (is_finished (status j0)); [by exists j; auto|].
      destruct (update_status j0 CANCELLED _ true now) as [j1 e1]. simpl.
      exists j. rewrite dict_get_set_neq by congruence. auto.
  - unfold retry_job.
    destruct (dict_get (jobs st) jid) as [j0|] eqn:Hg0; [|by exists j; auto].
    destruct (String.eq_dec jid k) as [<-|Hk].
    + assert (j0 = j) as -> by congruence.
      unfold update_status, status_eqb. rewrite Hc, bool_decide_false by done. simpl.
      eexists. rewrite dict_get_set_eq. split; [done|]. simpl. auto.
    + destruct (update_status j0 PENDING None false now) as [j1 e1]. simpl.
      exists j. rewrite dict_get_set_neq by congruence. auto.
  - unfold on_download_progress.
    destruct (find _ _) as [j0|] eqn:Hf; [|by exists j; auto]. simpl.
    apply find_some in Hf as [Hin Hp]. apply list_elem_of_In in Hin.
    destruct (String.eq_dec (id j0) k) as [Hk|Hk].
    + pose proof (keyed_get_eq _ _ _ _ Hs Hin Hg Hk) as ->.
      apply andb_prop in Hp as [_ Hp]. unfold status_eqb in Hp. rewrite Hc in Hp. done.
    + exists j. rewrite dict_get_set_neq by congruence. auto.
  - unfold cleanup_completed_jobs. simpl. exists j.
    rewrite dict_get_filter by apply Hs. rewrite Hg. simpl. rewrite Hc.
    rewrite decide_True by done. auto.
Qed.

Lemma reachable_cancelled_exits_witness :
  exists j', get_job (finish_download "job-A" (DlRaise "Connection reset") 3
                        (with_threads run_cancelled_downloading [])) "job-A" = Some j' /\
    (status j' = CANCELLED \/ status j' = PENDING \/ status j' = FAILED).
Proof.
  eapply (reachable_cancelled_exits 3 run_cancelled_downloading).
  - unfold reachable.
    apply rtc_l with run_added; [apply step_add; reflexivity|].
    apply rtc_l with run_downloading; [apply step_tick|].
    apply rtc_l with run_cancelled_downloading; [apply step_cancel|apply rtc_refl].
  - apply (step_download _ _ [] []). reflexivity.
  - vm_compute. reflexivity.
  - reflexivity.
Defined.

(** X8: [cleanup_completed_jobs] removes exactly the COMPLETED and FAILED
    jobs last updated before the cutoff and keeps the others; ids of removed
    jobs stay in the dispatch list. *)
Theorem cleanup_completed_jobs_get (now max_age_days : Z) (st : QueueState) (k : string) :
  NoDup (map fst (jobs st)) ->
  get_job (cleanup_completed_jobs (cleanup_cutoff now max_age_days) st) k =
    match get_job st k with
    | Some j =>
        if bool_decide (status j = COMPLETED \/ status j = FAILED)
           && (updated_at j <? now - max_age_days * 24 * 3600)
        then None else Some j
    | None => None
    end /\
  job_queue (cleanup_completed_jobs (cleanup_cutoff now max_age_days) st) = job_queue st.
Proof.
  intros Hnd. split; [|done]. unfold get_job, cleanup_completed_jobs. simpl.
  rewrite dict_get_filter by done.
  destruct (dict_get (jobs st) k) as [j|]; [|done]. simpl.
  unfold cleanup_cutoff.
  replace (bool_decide (status j = COMPLETED \/ status j = FAILED)) with
    (is_api_reported (status j)) by (by destruct (status j)).
  by destruct (is_api_reported _ && _).
Qed.

Lemma cleanup_completed_jobs_get_witness :
  get_job (cleanup_completed_jobs (cleanup_cutoff 700000 7) run_completed) "job-A" = None /\
  job_queue (cleanup_completed_jobs (cleanup_cutoff 700000 7) run_completed)
    = job_queue run_completed.
Proof.
  destruct (cleanup_completed_jobs_get 700000 7 run_completed "job-A") as [H1 H2].
  - vm_compute. repeat constructor; set_solver.
  - split; [|exact H2]. rewrite H1. vm_compute. reflexivity.
Defined.

(** X9: one [_check_ready_jobs] pass starts at most one job: the state is
    unchanged, or exactly one job of the table that is DOWNLOADED, JDF_READY
    or QUEUED_FOR_BURNING went through [start_job_processing]. *)
Theorem check_ready_jobs_at_most_one (max_concurrent_jobs : Z) (gen : GenOutcome) (now : Z)
    (st : QueueState) :
  check_ready_jobs max_concurrent_jobs gen now st = st \/
  exists j, j ∈ get_all_jobs st /\ ready_for_next_stage (status j) = true /\
    check_ready_jobs max_concurrent_jobs gen now st = commit st (start_job_processing gen now j).
Proof.
  unfold check_ready_jobs, get_all_jobs.
  pose proof (filter_sub_elem (fun j => ready_for_next_stage (status j) = true)
                (dict_values (jobs st))) as Hsub.
  assert (Hready : Forall (fun j => ready_for_next_stage (status j) = true)
            (filter (fun j => ready_for_next_stage (status j) = true) (dict_values (jobs st)))).
  { apply Forall_forall. intros x Hx. by apply list_elem_of_filter in Hx as [Hx _]. }
  revert Hsub Hready.
  generalize (filter (fun j => ready_for_next_stage (status j) = true) (dict_values (jobs st))).
  intros l. induction l as [|j l IH]; simpl; intros Hsub Hready; [by left|].
  inversion Hsub; inversion Hready; subst.
  destruct (_ <? _); [right; by exists j|by apply IH].
Qed.

(** X10: in a reachable state, a download progress report changes no
    status, no key of the table and not the dispatch list. *)
Theorem on_download_progress_keeps_statuses (max_concurrent_jobs : Z) (st : QueueState)
    (iso : string) (pct : Q) (now : Z) :
  reachable max_concurrent_jobs st ->
  map fst (jobs (on_download_progress iso pct now st)) = map fst (jobs st) /\
  job_queue (on_download_progress iso pct now st) = job_queue st /\
  forall k, option_map status (get_job (on_download_progress iso pct now st) k)
            = option_map status (get_job st k).
Proof.
  intros Hr. pose proof (reachable_inv _ _ Hr) as Hs.
  unfold on_download_progress, get_job.
  destruct (find _ _) as [j|] eqn:Hf; [|done]. simpl.
  apply find_some in Hf as [Hin _]. apply list_elem_of_In in Hin.
  destruct (table_inv_lookup _ _ Hs Hin) as [Hg _].
  split; [|split; [done|]].
  - rewrite dict_set_keys. rewrite bool_decide_true; [done|].
    apply list_elem_of_fmap. exists (id j, j). split; [done|]. by apply dict_get_elem.
  - intros k. destruct (String.eq_dec k (id j)) as [->|Hk].
    + by rewrite dict_get_set_eq, Hg.
    + by rewrite dict_get_set_neq.
Qed.

Lemma on_download_progress_keeps_statuses_witness :
  map fst (jobs (on_download_progress "iso-A" (25 # 1) 2 run_downloading))
    = map fst (jobs run_downloading) /\
  job_queue (on_download_progress "iso-A" (25 # 1) 2 run_downloading)
    = job_queue run_downloading /\
  forall k, option_map status (get_job (on_download_progress "iso-A" (25 # 1) 2 run_downloading) k)
            = option_map status (get_job run_downloading k).
Proof.
  apply (on_download_progress_keeps_statuses 3 run_downloading).
  unfold reachable.
  apply rtc_l with run_added; [apply step_add; reflexivity|].
  apply rtc_l with run_downloading; [apply step_tick|apply rtc_refl].
Defined.

(** X11: after [add_job], [get_job] returns the new PENDING job for its id
    and is unchanged for every other id; the id is appended to the dispatch
    list, and for a fresh id the job is appended to [get_all_jobs]. *)
Theorem add_job_get_job (jid : string) (info : ISOInfo) (now : Z) (st : QueueState) :
  get_job (add_job jid info now st) jid = Some (new_job jid info now) /\
  (forall k, k <> jid -> get_job (add_job jid info now st) k = get_job st k) /\
  job_queue (add_job jid info now st) = job_queue st ++ [jid] /\
  (get_job st jid = None ->
   get_all_jobs (add_job jid info now st) = get_all_jobs st ++ [new_job jid info now]).
Proof.
  unfold get_job, get_all_jobs, add_job. simpl.
  split; [apply dict_get_set_eq|]. split; [intros k Hk; by apply dict_get_set_neq|].
  split; [done|]. unfold dict_values.
  induction (jobs st) as [|[k0 v0] d IH]; simpl; intros Hn; [done|].
  destruct (String.eqb_spec jid k0); [done|]. simpl. by rewrite IH.
Qed.

Lemma add_job_get_job_witness :
  get_job (add_job "job-B" (mkISOInfo "iso-B") 7 run_completed) "job-A"
    = get_job run_completed "job-A" /\
  get_all_jobs (add_job "job-B" (mkISOInfo "iso-B") 7 run_completed)
    = get_all_jobs run_completed ++ [new_job "job-B" (mkISOInfo "iso-B") 7].
Proof.
  destruct (add_job_get_job "job-B" (mkISOInfo "iso-B") 7 run_completed) as (_ & H2 & _ & H4).
  split; [apply H2; discriminate|apply H4; vm_compute; reflexivity].
Defined.

Lemma iso_ids_set_elem (d : list (string * BurnJob)) (k : string) (v : BurnJob) (x : string) :
  x ∈ iso_ids (dict_set d k v) -> x ∈ iso_ids d \/ x = iso_id (iso_info v).
Proof.
  unfold iso_ids, dict_values.
  induction d as [|[k0 v0] d IH]; simpl; intros Hx.
  - apply elem_of_cons in Hx as [->|Hx]; [by right|by apply not_elem_of_nil in Hx].
  - destruct (String.eqb_spec k k0); simpl in Hx; apply elem_of_cons in Hx as [->|Hx].
    + by right.
    + left. by right.
    + left. left.
    + destruct (IH Hx) as [H|H]; [left; by right|by right].
Qed.

Lemma iso_ids_set_nodup (d : list (string * BurnJob)) (k : string) (v : BurnJob) :
  NoDup (iso_ids d) -> iso_id (iso_info v) ∉ iso_ids d -> NoDup (iso_ids (dict_set d k v)).
Proof.
  revert k v. unfold iso_ids, dict_values.
  induction d as [|[k0 v0] d IH]; simpl; intros k v Hnd Hv.
  - apply NoDup_singleton.
  - apply NoDup_cons in Hnd as [Hn Hnd].
    destruct (String.eqb_spec k k0); simpl; constructor.
    + intros H. apply Hv. by right.
    + done.
    + intros H. pose proof (iso_ids_set_elem d k v _ H) as [H'|H']; [done|].
      apply Hv. rewrite <- H'. left.
    + apply IH; [done|]. intros H. apply Hv. by right.
Qed.

Lemma add_new_isos_nodup (uuid : nat -> string) (save_ok : ISOInfo -> bool) (now : Z)
    (items : list ISOInfo) (w : WorkerState) (added_count : Z) :
  NoDup (iso_ids (jobs (wqueue w))) ->
  NoDup (iso_ids (jobs (wqueue (add_new_isos uuid save_ok now items w added_count).1))).
Proof.
  revert w added_count.
  induction items as [|info items IH]; simpl; intros w c Hnd; [done|].
  destruct (existsb _ _) eqn:Hex; [by apply IH|].
  apply existsb_iso_false in Hex.
  destruct (save_ok info); apply IH; simpl; by apply iso_ids_set_nodup.
Qed.

(** X12: polling the catalog never gives two jobs of the table the same ISO
    id, even when the query returns an ISO twice. *)
Theorem check_for_new_isos_unique_isos (uuid : nat -> string) (save_ok : ISOInfo -> bool)
    (now : Z) (q : QueryOutcome) (w : WorkerState) :
  NoDup (iso_ids (jobs (wqueue w))) ->
  NoDup (iso_ids (jobs (wqueue (check_for_new_isos uuid save_ok now q w).2))).
Proof.
  intros Hnd. unfold check_for_new_isos.
  destruct q as [[|info items]|err]; try done.
  pose proof (add_new_isos_nodup uuid save_ok now (info :: items) w 0 Hnd) as H.
  destruct (add_new_isos uuid save_ok now (info :: items) w 0) as [w' c]. exact H.
Qed.

Lemma check_for_new_isos_unique_isos_witness :
  NoDup (iso_ids (jobs (wqueue (check_for_new_isos job_uuid (fun _ => true) 5
    (QueryOk [mkISOInfo "iso-1"; mkISOInfo "iso-2"; mkISOInfo "iso-1"]) fresh_worker).2))).
Proof.
  apply check_for_new_isos_unique_isos. vm_compute. constructor.
Defined.

Lemma string_length_append (s t : string) :
  String.length (String.append s t) = (String.length s + String.length t)%nat.
Proof. induction s; simpl; auto. Qed.

Lemma string_prefix_append (s t : string) : String.prefix s (String.append s t) = true.
Proof.
  induction s as [|a s IH]; simpl; [by destruct t|].
  destruct (Ascii.ascii_dec a a); [done|congruence].
Qed.

Lemma string_substring_append (s t : string) (n m : nat) :
  String.substring (String.length s + n) m (String.append s t) = String.substring n m t.
Proof. induction s; simpl; auto. Qed.

Lemma glob_match_jdf_file (stem ext : string) :
  glob_match stem ext (String.append stem ".JDF") = String.eqb ext "JDF".
Proof.
  unfold glob_match. rewrite string_prefix_append, string_length_append. simpl.
  destruct (String.eqb_spec ext "JDF") as [->|Hne].
  - simpl. replace (String.length stem + 4 - 3 - 1)%nat with (String.length stem + 0)%nat by lia.
    rewrite string_substring_append. simpl. rewrite Nat.leb_refl. done.
  - destruct (Nat.leb_spec (String.length stem + S (String.length ext))
                (String.length stem + 4)) as [Hle|]; [|by rewrite andb_false_r].
    rewrite andb_true_r.
    replace (String.length stem + 4 - String.length ext - 1)%nat
      with (String.length stem + (3 - String.length ext))%nat by lia.
    rewrite string_substring_append.
    destruct (String.eqb_spec (String.substring (3 - String.length ext)
               (S (String.length ext)) ".JDF") (String.append "." ext)) as [Heq|]; [|done].
    exfalso. apply Hne.
    destruct ext as [|a [|b [|c [|d e]]]]; simpl in *; try lia;
      try (injection Heq as ?; subst; discriminate).
    injection Heq as ?. subst. done.
Qed.

Lemma has_match_app (files : list string) (f stem ext : string) :
  has_match (files ++ [f]) stem ext = has_match files stem ext || glob_match stem ext f.
Proof. unfold has_match. rewrite existsb_app. simpl. by rewrite orb_false_r. Qed.

Lemma jdf_exists_get_status (files : list string) (stem : string) :
  jdf_exists files stem = negb (bool_decide (get_status files stem = NOT_FOUND)).
Proof.
  unfold jdf_exists, get_status, file_ext_map. simpl.
  destruct (has_match files stem "JDF"), (has_match files stem "INP"),
    (has_match files stem "ERR"), (has_match files stem "DON"); done.
Qed.

(** X13: [exists] is true exactly when [get_status] finds a marker file. *)
Theorem jdf_exists_iff_found (files : list string) (stem : string) :
  jdf_exists files stem = negb (bool_decide (get_status files stem = NOT_FOUND)).
Proof. apply jdf_exists_get_status. Qed.

(** X14: for a stem free of glob metacharacters, after
    [create_if_not_exists] a marker is found, the status is unchanged
    except that NOT_FOUND becomes WAITING, and a second call changes
    nothing. *)
Theorem create_if_not_exists_status (files : list string) (stem : string)
    (Hlit : glob_literal stem = true) :
  get_status (create_if_not_exists files stem) stem =
    match get_status files stem with NOT_FOUND => WAITING | s => s end /\
  jdf_exists (create_if_not_exists files stem) stem = true /\
  create_if_not_exists (create_if_not_exists files stem) stem = create_if_not_exists files stem.
Proof.
  assert (Hst : get_status (create_if_not_exists files stem) stem =
                match get_status files stem with NOT_FOUND => WAITING | s => s end).
  { unfold create_if_not_exists.
    destruct (existsb (String.eqb (String.append stem ".JDF")) files) eqn:Hex.
    - apply existsb_exists in Hex as (f & Hin & Hf). apply String.eqb_eq in Hf. subst f.
      assert (has_match files stem "JDF" = true) as Hj.
      { apply existsb_exists. exists (String.append stem ".JDF"). split; [done|].
        by rewrite glob_match_jdf_file. }
      unfold get_status, file_ext_map. simpl. rewrite Hj.
      by destruct (has_match files stem "ERR"), (has_match files stem "DON"),
        (has_match files stem "INP").
    - unfold get_status, file_ext_map. simpl. rewrite !has_match_app, !glob_match_jdf_file.
      simpl. rewrite !orb_false_r, orb_true_r.
      by destruct (has_match files stem "ERR"), (has_match files stem "DON"),
        (has_match files stem "INP"), (has_match files stem "JDF"). }
  split; [exact Hst|]. split.
  - rewrite jdf_exists_get_status, Hst. by destruct (get_status files stem).
  - unfold create_if_not_exists.
    destruct (existsb (String.eqb (String.append stem ".JDF")) files) eqn:Hex;
      [by rewrite Hex|].
    rewrite existsb_app. simpl. by rewrite String.eqb_refl, orb_true_r.
Qed.

Lemma create_if_not_exists_status_witness :
  get_status (create_if_not_exists ["scan_1.ERR"; "other.JDF"] "scan") "scan" = ERROR /\
  get_status (create_if_not_exists ["other.JDF"] "scan") "scan" = WAITING.
Proof.
  split.
  - destruct (create_if_not_exists_status ["scan_1.ERR"; "other.JDF"] "scan" eq_refl)
      as (H & _ & _). rewrite H. vm_compute. reflexivity.
  - destruct (create_if_not_exists_status ["other.JDF"] "scan" eq_refl)
      as (H & _ & _). rewrite H. vm_compute. reflexivity.
Defined.

Section CallbackProofs.
Context {A : Type} `{EqDecision A}.

Lemma callbacks_remove_app_absent (cbs : list A) (cb : A) :
  cb ∉ cbs -> callbacks_remove (cbs ++ [cb]) cb = cbs.
Proof.
  induction cbs as [|c cbs IH]; simpl; intros Hn.
  - by rewrite bool_decide_true.
  - rewrite bool_decide_false by (intros ->; apply Hn; left).
    rewrite IH; [done|]. intros H. apply Hn. by right.
Qed.

(** X15: removing a callback just added (and not registered before)
    gives back the former list of callbacks. *)
Theorem remove_after_add_job_update_callback (cbs : list A) (cb : A) :
  cb ∉ cbs -> remove_job_update_callback (add_job_update_callback cbs cb) cb = cbs.
Proof.
  intros Hn. unfold remove_job_update_callback, add_job_update_callback.
  rewrite bool_decide_true; [by apply callbacks_remove_app_absent|].
  apply elem_of_app. right. left.
Qed.

(** X16: [remove_job_update_callback] does nothing for an unregistered
    callback, and otherwise removes its first registration only. *)
Theorem remove_job_update_callback_spec (cbs : list A) (cb : A) :
  (cb ∉ cbs -> remove_job_update_callback cbs cb = cbs) /\
  (cb ∈ cbs -> exists l1 l2, cbs = l1 ++ (cb :: l2) /\ (cb ∉ l1) /\
     remove_job_update_callback cbs cb = l1 ++ l2).
Proof.
  unfold remove_job_update_callback. split.
  - intros Hn. by rewrite bool_decide_false.
  - intros Hin. rewrite bool_decide_true by done.
    induction cbs as [|c cbs IH]; [by apply not_elem_of_nil in Hin|]. simpl.
    case_bool_decide as Hc.
    + subst c. exists [], cbs. split; [done|]. split; [apply not_elem_of_nil|done].
    + apply elem_of_cons in Hin as [->|Hin]; [done|].
      destruct (IH Hin) as (l1 & l2 & -> & Hl1 & Hr).
      exists (c :: l1), l2. split; [done|]. split; [|by rewrite Hr].
      intros H. apply elem_of_cons in H as [->|H]; [done|tauto].
Qed.

End CallbackProofs.

Lemma remove_after_add_job_update_callback_witness :
  remove_job_update_callback (add_job_update_callback [1; 2]%nat 3%nat) 3%nat = [1; 2]%nat.
Proof. apply remove_after_add_job_update_callback. vm_compute. set_solver. Defined.

Lemma remove_job_update_callback_spec_witness :
  remove_job_update_callback [1; 2]%nat 3%nat = [1; 2]%nat /\
  exists l1 l2, [1; 2; 1]%nat = l1 ++ (1%nat :: l2) /\ (1%nat ∉ l1) /\
     remove_job_update_callback [1; 2; 1]%nat 1%nat = l1 ++ l2.
Proof.
  split.
  - apply (proj1 (remove_job_update_callback_spec [1; 2]%nat 3%nat)). set_solver.
  - apply (proj2 (remove_job_update_callback_spec [1; 2; 1]%nat 1%nat)). set_solver.
Defined.

Lemma count_by_status_eq (l : list BurnJob) :
  length l =
  (length (filter (fun j => status_eqb (status j) PENDING = true) l)
   + length (filter (fun j => status_eqb (status j) DOWNLOADING = true) l)
   + length (filter (fun j => status_eqb (status j) BURNING = true) l)
   + length (filter (fun j => status_eqb (status j) COMPLETED = true) l)
   + length (filter (fun j => status_eqb (status j) FAILED = true) l)
   + length (filter (fun j => status_eqb (status j) DOWNLOADED = true) l)
   + length (filter (fun j => status_eqb (status j) GENERATING_JDF = true) l)
   + length (filter (fun j => status_eqb (status j) JDF_READY = true) l)
   + length (filter (fun j => status_eqb (status j) QUEUED_FOR_BURNING = true) l)
   + length (filter (fun j => status_eqb (status j) VERIFYING = true) l)
   + length (filter (fun j => status_eqb (status j) CANCELLED = true) l))%nat.
Proof.
  induction l as [|j l IH]; simpl; [done|].
  rewrite !filter_cons. unfold status_eqb in *.
  destruct (status j); repeat case_decide as Hd; simpl;
    try (exfalso; apply Hd; reflexivity); try discriminate; lia.
Qed.

(** X17: in [get_queue_status], [total_jobs] is the pending, downloading,
    burning, completed and failed counts plus the numbers of jobs in the
    six statuses the dictionary does not report (DOWNLOADED, GENERATING_JDF,
    JDF_READY, QUEUED_FOR_BURNING, VERIFYING, CANCELLED): every job is
    counted once. *)
Theorem get_queue_status_counts (max_concurrent_jobs : Z) (st : QueueState) :
  let qs := get_queue_status max_concurrent_jobs st in
  qs_total_jobs qs =
  (qs_pending qs + qs_downloading qs + qs_burning qs + qs_completed qs + qs_failed qs
   + length (get_jobs_by_status st DOWNLOADED)
   + length (get_jobs_by_status st GENERATING_JDF)
   + length (get_jobs_by_status st JDF_READY)
   + length (get_jobs_by_status st QUEUED_FOR_BURNING)
   + length (get_jobs_by_status st VERIFYING)
   + length (get_jobs_by_status st CANCELLED))%nat.
Proof.
  simpl. unfold get_jobs_by_status.
  pose proof (count_by_status_eq (dict_values (jobs st))) as H.
  unfold dict_values in *. rewrite length_map in H. exact H.
Qed.

(** X18: a stored status string is read back as the status it names;
    a missing, empty or unknown string is read as PENDING. *)
Theorem status_of_record_roundtrip :
  (forall s, status_of_record (Some (status_value s)) = s) /\
  status_of_record None = PENDING /\
  status_of_record (Some "") = PENDING /\
  (forall v, (forall s, status_value s <> v) -> status_of_record (Some v) = PENDING).
Proof.
  split; [intros s; by destruct s|]. split; [done|]. split; [done|].
  intros v Hv. unfold status_of_record.
  destruct (String.eqb_spec v ""); [done|].
  destruct (find _ _) as [s|] eqn:Hf; [|done].
  apply find_some in Hf as [_ Hf]. apply String.eqb_eq in Hf. by destruct (Hv s).
Qed.

Lemma status_of_record_roundtrip_witness :
  status_of_record (Some "done") = PENDING.
Proof.
  apply (proj2 (proj2 (proj2 status_of_record_roundtrip))).
  intros s. destruct s; discriminate.
Defined.

Lemma dict_values_set_elem (d : list (string * BurnJob)) (k : string) (v x : BurnJob) :
  x ∈ dict_values (dict_set d k v) -> x ∈ dict_values d \/ x = v.
Proof.
  unfold dict_values.
  induction d as [|[k0 v0] d IH]; simpl; intros Hx.
  - apply elem_of_cons in Hx as [->|Hx]; [by right|by apply not_elem_of_nil in Hx].
  - destruct (String.eqb_spec k k0); simpl in Hx; apply elem_of_cons in Hx as [->|Hx].
    + by right.
    + left. by right.
    + left. left.
    + destruct (IH Hx) as [H|H]; [left; by right|by right].
Qed.

(** X19: [load_existing_jobs] restores no job as DOWNLOADING, BURNING or
    GENERATING_JDF, and appends to the dispatch list, in record order, the
    id of every restored job that is not COMPLETED, FAILED or CANCELLED. *)
Theorem load_existing_jobs_spec (now : Z) (recs : list JobRecord) (st : QueueState) :
  (forall j, j ∈ get_all_jobs st -> not_mid_stage (status j)) ->
  (forall j, j ∈ get_all_jobs (load_existing_jobs now recs st) -> not_mid_stage (status j)) /\
  job_queue (load_existing_jobs now recs st) =
    job_queue st ++ map rec_id
      (filter (fun r => is_finished (status (restored_job now r)) = false) recs).
Proof.
  unfold get_all_jobs. revert st.
  induction recs as [|r recs IH]; intros st Hst.
  - split; [done|]. simpl. by rewrite app_nil_r.
  - set (j := restored_job now r).
    set (q := if is_finished (status j) then job_queue st else job_queue st ++ [id j]).
    change (load_existing_jobs now (r :: recs) st) with
      (load_existing_jobs now recs
         (mkQueueState (dict_set (jobs st) (id j) j) q (threads st) (events st))).
    destruct (IH (mkQueueState (dict_set (jobs st) (id j) j) q (threads st) (events st)))
      as [H1 H2].
    + simpl. intros j' Hj. apply dict_values_set_elem in Hj as [Hj| ->]; [by apply Hst|].
      unfold j, restored_job, not_mid_stage. simpl.
      destruct (status_of_record (rec_status r)); simpl; repeat split; discriminate.
    + split; [done|]. rewrite H2. cbn [job_queue]. rewrite filter_cons. unfold q.
      destruct (is_finished (status j)) eqn:Hf.
      * rewrite decide_False; [done|]. unfold j in Hf. rewrite Hf. discriminate.
      * rewrite decide_True; [|done]. cbn [map]. by rewrite <- app_assoc.
Qed.

Lemma load_existing_jobs_spec_witness :
  let recs := [mkJobRecord "job-1" "iso-1" (Some "burning") None None (Some "/d/1.iso")
                 (Some "/j/1.jdf") None None None (Some "CD");
               mkJobRecord "job-2" "iso-2" (Some "completed") None None None None None None
                 None None] in
  (forall j, j ∈ get_all_jobs (load_existing_jobs 9 recs empty_queue) ->
     not_mid_stage (status j)) /\
  job_queue (load_existing_jobs 9 recs empty_queue) = ["job-1"].
Proof.
  intros recs. destruct (load_existing_jobs_spec 9 recs empty_queue) as [H1 H2].
  - intros j Hj. by apply not_elem_of_nil in Hj.
  - split; [exact H1|]. rewrite H2. vm_compute. reflexivity.
Defined.

(** X20: one poll of the burn thread on a BURNING job: a timeout or a
    missing JDF path fails the job and stops the thread; otherwise the
    thread keeps polling and the marker decides: SUCCESS completes the job
    with progress 100, ERROR fails it, PROCESSING sets progress 50, and
    WAITING or NOT_FOUND leave the job as it was. *)
Theorem burn_loop_step_outcome (timed_out : bool) (marker : MarkerStatus) (now : Z)
    (j : BurnJob) :
  status j = BURNING ->
  let '(j', _, keep) := burn_loop_step timed_out marker now j in
  keep = negb timed_out && truthy_path (jdf_path j) /\
  status j' = (if timed_out || negb (truthy_path (jdf_path j)) then FAILED
               else match marker with
                    | SUCCESS => COMPLETED | ERROR => FAILED | _ => BURNING
                    end) /\
  (keep = true -> marker = SUCCESS -> progress j' = 100%Q) /\
  (keep = true -> marker = PROCESSING -> progress j' = 50%Q) /\
  (keep = true -> marker = WAITING \/ marker = NOT_FOUND -> j' = j).
Proof.
  destruct j as [jid info st ca ua ip jp pr em rc ns dt]. simpl. intros ->.
  unfold burn_loop_step, check_burn_status, update_status, status_eqb. simpl.
  destruct timed_out; simpl; [repeat split; discriminate|].
  destruct (truthy_path jp); simpl; [|repeat split; discriminate].
  destruct marker; simpl; repeat split; try done;
    intros _ H; try discriminate; destruct H; discriminate.
Qed.

Lemma burn_loop_step_outcome_witness :
  let '(j', _, keep) := burn_loop_step false SUCCESS 6
    (mkBurnJob "job-A" (mkISOInfo "iso-A") BURNING 0 5 (Some "/downloads/a.iso")
       (Some "/jdf/job-A.jdf") 0%Q None 0 false (Some "CD")) in
  keep = negb false && truthy_path (Some "/jdf/job-A.jdf") /\
  status j' = (if false || negb (truthy_path (Some "/jdf/job-A.jdf")) then FAILED
               else match SUCCESS with
                    | SUCCESS => COMPLETED | ERROR => FAILED | _ => BURNING
                    end) /\
  (keep = true -> SUCCESS = SUCCESS -> progress j' = 100%Q) /\
  (keep = true -> SUCCESS = PROCESSING -> progress j' = 50%Q) /\
  (keep = true -> SUCCESS = WAITING \/ SUCCESS = NOT_FOUND -> j' =
     mkBurnJob "job-A" (mkISOInfo "iso-A") BURNING 0 5 (Some "/downloads/a.iso")
       (Some "/jdf/job-A.jdf") 0%Q None 0 false (Some "CD")).
Proof. apply burn_loop_step_outcome. reflexivity. Defined.

(** X21: in a reachable state, dispatching a DOWNLOADED job never takes the
    "No ISO file path" branch of [_start_jdf_generation]: the job becomes
    JDF_READY with the generated path, or FAILED with the generator's
    error. *)
Theorem reachable_jdf_generation (max_concurrent_jobs : Z) (st : QueueState)
    (j : BurnJob) (gen : GenOutcome) (now : Z) :
  reachable max_concurrent_jobs st -> j ∈ get_all_jobs st -> status j = DOWNLOADED ->
  let j' := (start_job_processing gen now j).1.1 in
  match gen with
  | GenOk p => status j' = JDF_READY /\ jdf_path j' = Some p
  | GenRaise err =>
      status j' = FAILED /\
      error_message j' = Some (String.append "JDF generation failed: " err)
  end.
Proof.
  intros Hr Hj Hs. pose proof (reachable_job_inv _ _ _ Hr Hj) as Hi.
  assert (Hp : truthy_path (iso_path j) = true).
  { unfold job_inv in Hi. rewrite Hs in Hi. simpl in Hi. bool_hyps. done. }
  destruct j as [jid info st0 ca ua ip jp pr em rc ns dt]. simpl in *. subst st0.
  unfold start_job_processing, start_jdf_generation, update_status, status_eqb. simpl.
  rewrite Hp. simpl. destruct gen; simpl; done.
Qed.

Lemma reachable_jdf_generation_witness :
  status (start_job_processing (GenRaise "disk full") 3
            (mkBurnJob "job-A" (mkISOInfo "iso-A") DOWNLOADED 0 2 (Some "/downloads/a.iso")
               None 0%Q None 0 false (Some "CD"))).1.1 = FAILED /\
  error_message (start_job_processing (GenRaise "disk full") 3
            (mkBurnJob "job-A" (mkISOInfo "iso-A") DOWNLOADED 0 2 (Some "/downloads/a.iso")
               None 0%Q None 0 false (Some "CD"))).1.1
    = Some (String.append "JDF generation failed: " "disk full").
Proof.
  apply (reachable_jdf_generation 3 run_downloaded _ (GenRaise "disk full") 3).
  - unfold reachable.
    apply rtc_l with run_added; [apply step_add; reflexivity|].
    apply rtc_l with run_downloading; [apply step_tick|].
    apply rtc_l with run_downloaded; [apply (step_download _ _ [] []); reflexivity|].
    apply rtc_refl.
  - vm_compute. left.
  - reflexivity.
Defined.

